(** * Blog generator service: a shallow embedding of [blogGenerator.js]

    The service has three moving parts: [generateBlog] (one inference
    call, one document write), the route [POST /generate] (a sequential
    loop over the submitted items) and the route [GET /blog] (a sorted
    read).  The inference API, the document store and the clock are
    outside the program; they are an explicit environment here, and the
    store and the log of inference calls are threaded as state; what
    the database decides when it answers a read (whether it answers,
    and the order of records of equal date) comes with the read.
    Console output, the connection set-up and the static file handler
    are not modelled. *)

From Stdlib Require Import List NArith ZArith QArith Bool String Ascii Lia.
From Stdlib Require Import Permutation Sorted.
Import ListNotations.

Set Implicit Arguments.
#[local] Set Warnings "-register-all".

(** ** JavaScript strings *)

(** A JavaScript string is a sequence of UTF-16 code units. *)
Definition jsstring := list N.

Definition str (s : string) : jsstring :=
  map N_of_ascii (list_ascii_of_string s).

Definition jsstring_eqb (a b : jsstring) : bool :=
  if list_eq_dec N.eq_dec a b then true else false.

(** [WhiteSpace] and [LineTerminator] of ECMAScript, the code units
    that [String.prototype.trim] strips. *)
Definition is_space (c : N) : bool :=
  ((9 <=? c) && (c <=? 13) || (c =? 32) || (c =? 160) || (c =? 5760)
   || (8192 <=? c) && (c <=? 8202) || (c =? 8232) || (c =? 8233)
   || (c =? 8239) || (c =? 8287) || (c =? 12288) || (c =? 65279))%N.

Fixpoint trimStart (s : jsstring) : jsstring :=
  match s with
  | c :: rest => if is_space c then trimStart rest else s
  | [] => []
  end.

Definition trimEnd (s : jsstring) : jsstring := rev (trimStart (rev s)).

(** [s.trim()] *)
Definition trim (s : jsstring) : jsstring := trimEnd (trimStart s).

(** ** JavaScript values

    The values the service handles are the ones JSON can carry, plus
    [undefined].  A number is carried as its [ToString] text: the
    service only tests numbers for truthiness, interpolates them into
    the prompt and hands them to the store's string cast.  The text of
    zero is ["0"]. *)
Inductive jsval : Type :=
| JUndefined
| JNull
| JBool (b : bool)
| JNum (text : jsstring)
| JStr (s : jsstring)
| JArr (elements : list jsval)
| JObj (members : list (jsstring * jsval)).

Definition nullish (v : jsval) : bool :=
  match v with
  | JUndefined | JNull => true
  | _ => false
  end.

(** [ToBoolean] *)
Definition truthy (v : jsval) : bool :=
  match v with
  | JUndefined | JNull => false
  | JBool b => b
  | JNum text => negb (jsstring_eqb text (str "0"))
  | JStr s => match s with [] => false | _ => true end
  | JArr _ | JObj _ => true
  end.

(** [Array.isArray] *)
Definition isArray (v : jsval) : bool :=
  match v with
  | JArr _ => true
  | _ => false
  end.

Fixpoint lookup (k : jsstring) (members : list (jsstring * jsval)) : jsval :=
  match members with
  | [] => JUndefined
  | (k', v) :: rest => if jsstring_eqb k k' then v else lookup k rest
  end.

(** Whether the object has an own member named [k]. *)
Fixpoint has_member (k : jsstring) (members : list (jsstring * jsval)) : bool :=
  match members with
  | [] => false
  | (k', _) :: rest => jsstring_eqb k k' || has_member k rest
  end.

(** What can go wrong: the runtime's [TypeError], a rejected inference
    call, and the two ways a document write is rejected. *)
Inductive error : Type :=
| TypeError
| InferenceError
| ValidationError
| StoreError.

Inductive Completion (A : Type) : Type :=
| Return (a : A)
| Throw (e : error).
Arguments Throw {A} e.

(** [v.k] for the member names this program reads ([blogs], [title],
    [details], [choices], [message], [content]): none of them is a
    member of an array, a string, a number or a boolean, so only plain
    objects answer with something other than [undefined]; reading a
    member of [undefined] or [null] throws. *)
Definition get_member (v : jsval) (k : jsstring) : Completion jsval :=
  match v with
  | JUndefined | JNull => Throw TypeError
  | JObj members => Return (lookup k members)
  | _ => Return JUndefined
  end.

(** [v?.k] *)
Definition opt_member (v : jsval) (k : jsstring) : jsval :=
  match get_member v k with
  | Return x => x
  | Throw _ => JUndefined
  end.

(** [v?.[0]]: the first element of an array, the first code unit of a
    string, the member ["0"] of an object. *)
Definition opt_index0 (v : jsval) : jsval :=
  match v with
  | JArr (x :: _) => x
  | JStr (c :: _) => JStr [c]
  | JObj members => lookup (str "0") members
  | _ => JUndefined
  end.

(** [v?.trim()]: [undefined] on [undefined] and [null], the trimmed
    string on a string; on any other value [v.trim] is not a function
    and the call throws. *)
Definition opt_trim (v : jsval) : Completion jsval :=
  match v with
  | JUndefined | JNull => Return JUndefined
  | JStr s => Return (JStr (trim s))
  | _ => Throw TypeError
  end.

(** [ToString], as the template literal applies it.  A member of a
    parsed object is never a function, so an object that has an own
    [toString] member cannot be converted and the conversion throws;
    any other object falls back on [Object.prototype.toString].  An
    array is joined with commas, [null] and [undefined] elements
    giving the empty string, and throws when an element does. *)
Fixpoint toString (v : jsval) : Completion jsstring :=
  match v with
  | JUndefined => Return (str "undefined")
  | JNull => Return (str "null")
  | JBool true => Return (str "true")
  | JBool false => Return (str "false")
  | JNum text => Return text
  | JStr s => Return s
  | JArr elements =>
      let fix join (l : list jsval) : Completion jsstring :=
        match l with
        | [] => Return []
        | x :: rest =>
            match (if nullish x then Return [] else toString x) with
            | Throw e => Throw e
            | Return s =>
                match rest with
                | [] => Return s
                | _ :: _ =>
                    match join rest with
                    | Throw e => Throw e
                    | Return r => Return (s ++ str "," ++ r)
                    end
                end
            end
        end
      in join elements
  | JObj members =>
      if has_member (str "toString") members then Throw TypeError
      else Return (str "[object Object]")
  end.

(** ** The blog collection *)

(** The store's cast to the schema type [String], on the values above:
    [undefined] and [null] pass, a string is kept, a number or boolean
    is stored as its text, an object stands for its non-empty string
    [_id] if it has one; arrays and other objects do not cast. *)
Definition castString (v : jsval) : option jsval :=
  match v with
  | JUndefined | JNull | JStr _ => Some v
  | JNum text => Some (JStr text)
  | JBool true => Some (JStr (str "true"))
  | JBool false => Some (JStr (str "false"))
  | JArr _ => None
  | JObj members =>
      match lookup (str "_id") members with
      | JStr (c :: s) => Some (JStr (c :: s))
      | _ => None
      end
  end.

(** A document of [blogSchema]: three [String] paths and [createdAt],
    a date in milliseconds, whose default is the time of construction.
    The identifier and version key the driver adds are left out: the
    program never reads them. *)
Record Blog : Type := mkBlog {
  title : jsval;
  details : jsval;
  content : jsval;
  createdAt : Z
}.

(** [new Blog({ title, details, content })] at time [now].  A path that
    does not cast leaves the document invalid, which [save] reports. *)
Definition new_Blog (now : Z) (t d c : jsval) : option Blog :=
  match castString t, castString d, castString c with
  | Some t', Some d', Some c' => Some (mkBlog t' d' c' now)
  | _, _, _ => None
  end.

(** ** The inference request *)

Record ChatMessage : Type := mkMessage {
  role : jsstring;
  text : jsstring
}.

Record ChatRequest : Type := mkRequest {
  model : jsstring;
  messages : list ChatMessage;
  max_tokens : Z;
  temperature : Q
}.

Definition MODEL_NAME : jsstring := str "meta-llama/Llama-3.1-8B-Instruct".

Definition nl : jsstring := [10%N].
Definition quote : jsstring := [34%N].

(** The template literal of [generateBlog], once the title and the
    details have been converted to text. *)
Definition prompt_text (title_text details_text : jsstring) : jsstring :=
  nl ++ str "  Write a beginner-friendly programming blog on the topic: "
     ++ quote ++ title_text ++ quote ++ str "." ++ nl
  ++ str "  Include:" ++ nl
  ++ str "  - Simple introduction" ++ nl
  ++ str "  - Key concepts explained clearly" ++ nl
  ++ str "  - Example code snippets (if relevant)" ++ nl
  ++ str "  - Real-world applications" ++ nl
  ++ str "  - A small conclusion" ++ nl
  ++ nl
  ++ str "  Details: " ++ details_text ++ nl
  ++ str "  ".

(** [const prompt = `...${title}...${details}...`]: the title is
    converted first, then the details; either conversion can throw. *)
Definition prompt (t d : jsval) : Completion jsstring :=
  match toString t with
  | Throw e => Throw e
  | Return title_text =>
      match toString d with
      | Throw e => Throw e
      | Return details_text => Return (prompt_text title_text details_text)
      end
  end.

Definition system_text : jsstring :=
  str "You are a beginner-friendly technical writer. Keep explanations simple, clear, and engaging for new developers.".

(** The argument of [client.chatCompletion] for a prompt. *)
Definition request (p : jsstring) : ChatRequest :=
  {| model := MODEL_NAME;
     messages := [ mkMessage (str "system") system_text;
                   mkMessage (str "user") p ];
     max_tokens := 800;
     temperature := 6 # 10 |}.

Definition no_content : jsstring := str "No content generated.".
Definition failed : jsstring := str "Failed to generate blog.".

(** [a || b] *)
Definition js_or (a b : jsval) : jsval := if truthy a then a else b.

(** [response?.choices?.[0]?.message?.content], the text of the first
    returned message. *)
Definition first_text (response : jsval) : jsval :=
  opt_member (opt_member (opt_index0 (opt_member response (str "choices")))
                         (str "message"))
             (str "content").

(** [response?.choices?.[0]?.message?.content?.trim() ||
     "No content generated."] *)
Definition content_of (response : jsval) : Completion jsval :=
  match opt_trim (first_text response) with
  | Return trimmed => Return (js_or trimmed (JStr no_content))
  | Throw e => Throw e
  end.

(** ** Environment and state *)

(** What the program does not decide.  The [n]-th inference call
    (counting from 0) either returns a response or throws; the write
    that follows it is accepted by the collection or not; the clock is
    read when the document is constructed. *)
Record Env : Type := mkEnv {
  chatCompletion : nat -> ChatRequest -> Completion jsval;
  accepts : nat -> Blog -> bool;
  Date_now : nat -> Z
}.

(** The collection in insertion order, and the inference requests sent
    so far. *)
Record World : Type := mkWorld {
  db : list Blog;
  sent : list ChatRequest
}.

(** State that survives an exception. *)
Definition M (A : Type) : Type := World -> Completion A * World.

Definition ret {A} (a : A) : M A := fun w => (Return a, w).

Definition throw {A} (e : error) : M A := fun w => (Throw e, w).

Definition bind {A B} (m : M A) (k : A -> M B) : M B :=
  fun w =>
    match m w with
    | (Return a, w') => k a w'
    | (Throw e, w') => (Throw e, w')
    end.

Definition lift {A} (c : Completion A) : M A := fun w => (c, w).

Definition try_catch {A} (m : M A) (handler : error -> M A) : M A :=
  fun w =>
    match m w with
    | (Return a, w') => (Return a, w')
    | (Throw e, w') => handler e w'
    end.

Notation "x <- m ;; k" := (bind m (fun x => k))
  (at level 61, m at next level, right associativity).

(** What [generateBlog] hands back: the saved document, or the plain
    object literal of the [catch] branch. *)
Inductive Generated : Type :=
| Document (blog : Blog)
| PlainObject (members : list (jsstring * jsval)).

Inductive Body : Type :=
| ErrorJson (message : jsstring)
| ResultsJson (results : list Generated)
| BlogsJson (blogs : list Blog).

Record Response : Type := mkResponse {
  status : nat;
  body : Body
}.

(** [{ title, details, content: "Failed to generate blog." }] *)
Definition placeholder (t d : jsval) : Generated :=
  PlainObject [ (str "title", t); (str "details", d);
                (str "content", JStr failed) ].

Section Service.

Variable env : Env.

(** [await client.chatCompletion(req)] *)
Definition await_chatCompletion (req : ChatRequest) : M jsval :=
  fun w =>
    (chatCompletion env (List.length (sent w)) req,
     {| db := db w; sent := sent w ++ [req] |}).

(** [await blog.save()]: validation, then the insert. *)
Definition save (n : nat) (blog : option Blog) : M Blog :=
  fun w =>
    match blog with
    | None => (Throw ValidationError, w)
    | Some doc =>
        if accepts env n doc
        then (Return doc, {| db := db w ++ [doc]; sent := sent w |})
        else (Throw StoreError, w)
    end.

(** The prompt is built before the [try]: a title or details that
    cannot be converted makes the call throw, with no request sent.
    Everything after it is inside the [try], whose [catch] hands back
    the placeholder. *)
Definition generateBlog (t d : jsval) : M Generated :=
  p <- lift (prompt t d) ;;
  fun w =>
    let n := List.length (sent w) in
    try_catch
      (response <- await_chatCompletion (request p) ;;
       c <- lift (content_of response) ;;
       blog <- save n (new_Blog (Date_now env n) t d c) ;;
       ret (Document blog))
      (fun _ => ret (placeholder t d))
      w.

(** The [for ... of] loop of [POST /generate]. *)
Fixpoint generate_each (blogs : list jsval) (results : list Generated)
  : M (list Generated) :=
  match blogs with
  | [] => ret results
  | b :: rest =>
      t <- lift (get_member b (str "title")) ;;
      d <- lift (get_member b (str "details")) ;;
      generated <- generateBlog t d ;;
      generate_each rest (results ++ [generated])
  end.

Definition bad_request : jsstring :=
  str "Please provide blogs as an array of { title, details }".

Definition server_error : jsstring := str "Failed to generate blogs".

Definition elements_of (v : jsval) : list jsval :=
  match v with
  | JArr l => l
  | _ => []
  end.

(** The body of the [try] of [POST /generate]. *)
Definition post_generate_try (req_body : jsval) : M Response :=
  blogs <- lift (get_member req_body (str "blogs")) ;;
  if negb (truthy blogs) || negb (isArray blogs)
  then ret (mkResponse 400 (ErrorJson bad_request))
  else
    results <- generate_each (elements_of blogs) [] ;;
    ret (mkResponse 200 (ResultsJson results)).

(** [POST /generate] *)
Definition post_generate (req_body : jsval) (w : World) : Response * World :=
  match post_generate_try req_body w with
  | (Return res, w') => (res, w')
  | (Throw _, w') => (mkResponse 500 (ErrorJson server_error), w')
  end.

End Service.

(** How the database orders two records of equal date when it answers
    a read: [tie x y = true] lists [x] before [y].  The program does
    not decide it. *)
Definition TieOrder : Type := Blog -> Blog -> bool.

(** [Blog.find().sort({ createdAt: -1 })]: the collection, newest
    first, records of equal date in the order the database chooses for
    this read. *)
Fixpoint insert_desc (tie : TieOrder) (x : Blog) (l : list Blog) : list Blog :=
  match l with
  | [] => [x]
  | y :: rest =>
      if (createdAt y <? createdAt x)%Z
         || (createdAt y =? createdAt x)%Z && tie x y
      then x :: l
      else y :: insert_desc tie x rest
  end.

Fixpoint sort_desc (tie : TieOrder) (l : list Blog) : list Blog :=
  match l with
  | [] => []
  | x :: rest => insert_desc tie x (sort_desc tie rest)
  end.

(** [GET /blog], on a read that the database answers. *)
Definition get_blog (tie : TieOrder) (w : World) : Response * World :=
  (mkResponse 200 (BlogsJson (sort_desc tie (db w))), w).

(** What the database does with the read of one [GET /blog]. *)
Inductive ReadOutcome : Type :=
| ReadFails
| ReadAnswers (tie : TieOrder).

(** [GET /blog], whatever the read does.  The handler has no [try]:
    when the read fails it ends without sending a response (what the
    framework then does with the rejected promise is not modelled). *)
Definition get_blog_route (read : ReadOutcome) (w : World)
  : option Response * World :=
  match read with
  | ReadFails => (None, w)
  | ReadAnswers tie => let (res, w') := get_blog tie w in (Some res, w')
  end.

(** ** Reading results *)

(** The [content] of a result, whichever of the two shapes it has. *)
Definition content_in (g : Generated) : jsval :=
  match g with
  | Document blog => content blog
  | PlainObject members => lookup (str "content") members
  end.

Definition is_text_or_absent (v : jsval) : bool :=
  match v with
  | JUndefined | JNull | JStr _ => true
  | _ => false
  end.

(** The content rule in the specification's words: the trimmed text of
    the first message, or the sentinel when there is no text or it
    trims to nothing. *)
Definition trimmed_or_sentinel (v : jsval) : jsstring :=
  match v with
  | JStr s => match trim s with [] => no_content | t => t end
  | _ => no_content
  end.

(** The log after one more request. *)
Definition logged (w : World) (req : ChatRequest) : World :=
  {| db := db w; sent := sent w ++ [req] |}.

Definition stored (w : World) (req : ChatRequest) (doc : Blog) : World :=
  {| db := db w ++ [doc]; sent := sent w ++ [req] |}.

(** ** Sample environments for the worked instances *)

Definition reply (s : jsstring) : jsval :=
  JObj [ (str "choices",
          JArr [ JObj [ (str "message",
                         JObj [ (str "role", JStr (str "assistant"));
                                (str "content", JStr s) ]) ] ]) ].

(** The API answers, the store accepts, the clock counts calls. *)
Definition env_up : Env :=
  mkEnv (fun _ _ => Return (reply (str "  Closures capture variables.  ")))
        (fun _ _ => true)
        (fun n => Z.of_nat n).

(** The API throws on every call. *)
Definition env_api_down : Env :=
  mkEnv (fun _ _ => Throw InferenceError) (fun _ _ => true) (fun n => Z.of_nat n).

(** The API answers but the store rejects every write. *)
Definition env_store_down : Env :=
  mkEnv (fun _ _ => Return (reply (str "Closures capture variables.")))
        (fun _ _ => false)
        (fun n => Z.of_nat n).

(** The API throws on call 1 only. *)
Definition env_flaky : Env :=
  mkEnv (fun n _ => match n with
                    | 1%nat => Throw InferenceError
                    | _ => Return (reply (str "Closures capture variables."))
                    end)
        (fun _ _ => true)
        (fun n => Z.of_nat n).

Definition empty_world : World := mkWorld [] [].

Definition item (t d : string) : jsval :=
  JObj [ (str "title", JStr (str t)); (str "details", JStr (str d)) ].

(** ** Reading a batch *)

(** The arguments the loop passes for item [b]. *)
Definition title_of (b : jsval) : jsval := opt_member b (str "title").
Definition details_of (b : jsval) : jsval := opt_member b (str "details").

(** The prompt built for item [b]. *)
Definition prompt_of (b : jsval) : Completion jsstring :=
  prompt (title_of b) (details_of b).

(** The value can be interpolated into the prompt. *)
Definition interpolates (v : jsval) : bool :=
  match toString v with
  | Return _ => true
  | Throw _ => false
  end.

(** An item the loop can generate: not [null] or [undefined], with a
    title and details that can be interpolated. *)
Definition valid_item (b : jsval) : bool :=
  negb (nullish b) && interpolates (title_of b) && interpolates (details_of b).

(** The inference requests for a list of items, in order. *)
Fixpoint requests_of (items : list jsval) : list ChatRequest :=
  match items with
  | [] => []
  | b :: rest =>
      match prompt_of b with
      | Return p => request p :: requests_of rest
      | Throw _ => requests_of rest
      end
  end.

(** The state in which item number [i] of a batch is generated, when
    the batch starts in [w]. *)
Fixpoint world_before (env : Env) (w : World) (items : list jsval) (i : nat)
  : World :=
  match i, items with
  | S j, b :: rest =>
      world_before env (snd (generateBlog env (title_of b) (details_of b) w)) rest j
  | _, _ => w
  end.



(** The body's [blogs] is the array [items], each of them an item the
    loop can generate. *)
Definition carries_items (req_body : jsval) (items : list jsval) : Prop :=
  get_member req_body (str "blogs") = Return (JArr items)
  /\ Forall (fun b => valid_item b = true) items.

(** [a] is at least as new as [b]. *)
Definition newer_first (a b : Blog) : Prop := (createdAt b <= createdAt a)%Z.

(** A collection filled out of chronological order. *)
Definition shuffled_world : World :=
  mkWorld [ mkBlog (JStr (str "second")) (JStr []) (JStr (str "b")) 20;
            mkBlog (JStr (str "third")) (JStr []) (JStr (str "c")) 30;
            mkBlog (JStr (str "first")) (JStr []) (JStr (str "a")) 10 ]
          [].

(** ** Start-up configuration *)

(** [process.env]: a variable is unset or holds a string. *)
Definition ProcessEnv : Type := jsstring -> option jsstring.

Definition env_var (penv : ProcessEnv) (name : jsstring) : jsval :=
  match penv name with
  | Some s => JStr s
  | None => JUndefined
  end.

(** [process.env.HF_TOKEN || process.env.HF_API_KEY] *)
Definition HF_TOKEN (penv : ProcessEnv) : jsval :=
  js_or (env_var penv (str "HF_TOKEN")) (env_var penv (str "HF_API_KEY")).

(** [if (!HF_TOKEN) console.error(...)]: whether the warning is
    printed. *)
Definition warns_missing_token (penv : ProcessEnv) : bool :=
  negb (truthy (HF_TOKEN penv)).

(** [process.env.PORT || 5000] *)
Definition PORT (penv : ProcessEnv) : jsval :=
  js_or (env_var penv (str "PORT")) (JNum (str "5000")).

(** The variable holds a non-empty string. *)
Definition is_set (penv : ProcessEnv) (name : jsstring) : bool :=
  match penv name with
  | Some (_ :: _) => true
  | _ => false
  end.

(** ** The router *)

(** The two routes.  Requests are served one after the other; requests
    that overlap in time are outside this model. *)
Inductive Request : Type :=
| PostGenerate (req_body : jsval)
| GetBlog (read : ReadOutcome).

Definition handle (env : Env) (r : Request) (w : World)
  : option Response * World :=
  match r with
  | PostGenerate req_body =>
      let (res, w') := post_generate env req_body w in (Some res, w')
  | GetBlog read => get_blog_route read w
  end.

Fixpoint serve (env : Env) (rs : list Request) (w : World)
  : list (option Response) * World :=
  match rs with
  | [] => ([], w)
  | r :: rest =>
      let (res, w1) := handle env r w in
      let (more, w2) := serve env rest w1 in
      (res :: more, w2)
  end.

(** ** Further vocabulary for the properties *)

(** The documents among the results of a batch, in order. *)
Fixpoint documents_of (results : list Generated) : list Blog :=
  match results with
  | [] => []
  | Document doc :: rest => doc :: documents_of rest
  | PlainObject _ :: rest => documents_of rest
  end.

(** A body whose [blogs] is the array [items]. *)
Definition body_of (items : list jsval) : jsval :=
  JObj [(str "blogs", JArr items)].

Definition all_space (s : jsstring) : Prop :=
  Forall (fun c => is_space c = true) s.

(** The content is a non-empty string with no white space at either
    end. *)
Definition well_formed (doc : Blog) : Prop :=
  exists s, content doc = JStr s /\ s <> [] /\ trim s = s.

Definition is_object (v : jsval) : bool :=
  match v with
  | JObj _ => true
  | _ => false
  end.

(** The fixed text the template puts between the title and the
    details. *)
Definition prompt_between : jsstring :=
  quote ++ str "." ++ nl
  ++ str "  Include:" ++ nl
  ++ str "  - Simple introduction" ++ nl
  ++ str "  - Key concepts explained clearly" ++ nl
  ++ str "  - Example code snippets (if relevant)" ++ nl
  ++ str "  - Real-world applications" ++ nl
  ++ str "  - A small conclusion" ++ nl
  ++ nl
  ++ str "  Details: ".

(** The response to the two halves of a split batch, put together. *)
Definition after_results (first : list Generated) (res : Response) : Response :=
  match body res with
  | ResultsJson second => mkResponse (status res) (ResultsJson (first ++ second))
  | _ => res
  end.

(** A reply whose first message holds [v] as its content. *)
Definition reply_with (v : jsval) : jsval :=
  JObj [ (str "choices",
          JArr [ JObj [ (str "message", JObj [ (str "content", v) ]) ] ]) ].

(** The API answers with a content that is not text. *)
Definition env_odd_reply : Env :=
  mkEnv (fun _ _ => Return (reply_with (JArr [JStr (str "part")])))
        (fun _ _ => true)
        (fun n => Z.of_nat n).

Definition penv_of (l : list (jsstring * jsstring)) : ProcessEnv :=
  fun name =>
    match find (fun kv => jsstring_eqb name (fst kv)) l with
    | Some kv => Some (snd kv)
    | None => None
    end.

(** The status of [POST /generate], read off the request alone. *)
Definition expected_status (req_body : jsval) : nat :=
  if nullish req_body then 500%nat
  else
    match opt_member req_body (str "blogs") with
    | JArr items => if forallb valid_item items then 200%nat else 500%nat
    | _ => 400%nat
    end.

(** [w'] is [w] with records appended and requests logged: no more
    records than requests, and every new record well formed. *)
Definition extends (w w' : World) : Prop :=
  exists added reqs,
    db w' = db w ++ added
    /\ sent w' = sent w ++ reqs
    /\ (List.length added <= List.length reqs)%nat
    /\ Forall well_formed added.

(** The request names the one model, caps the output at 800 tokens,
    samples at temperature 0.6 and carries the fixed system message
    followed by one user message. *)
Definition fixed_parameters (req : ChatRequest) : Prop :=
  model req = MODEL_NAME
  /\ max_tokens req = 800%Z
  /\ temperature req = 6 # 10
  /\ exists user_text,
       messages req = [ mkMessage (str "system") system_text;
                        mkMessage (str "user") user_text ].

(** Between [w] and [w'] only requests with the fixed parameters were
    sent. *)
Definition sends_fixed (w w' : World) : Prop :=
  exists reqs, sent w' = sent w ++ reqs /\ Forall fixed_parameters reqs.

(** An item whose title is an object with an own [toString] member;
    it is not [null] and has a title and details. *)
Definition odd_item : jsval :=
  JObj [ (str "title", JObj [(str "toString", JNum (str "1"))]);
         (str "details", JStr (str "d")) ].

(** A collection with two records of the same date. *)
Definition tied_world : World :=
  mkWorld [ mkBlog (JStr (str "one")) (JStr []) (JStr (str "a")) 10;
            mkBlog (JStr (str "two")) (JStr []) (JStr (str "b")) 10 ]
          [].

Definition first_wins : TieOrder := fun _ _ => true.
Definition last_wins : TieOrder := fun _ _ => false.

(** * Properties *)

(** ** [generateBlog] *)

Lemma generateBlog_cases (env : Env) (t d : jsval) (w : World) :
  generateBlog env t d w =
  match prompt t d with
  | Throw e => (Throw e, w)
  | Return p =>
      let n := List.length (sent w) in
      match chatCompletion env n (request p) with
      | Throw _ => (Return (placeholder t d), logged w (request p))
      | Return response =>
          match content_of response with
          | Throw _ => (Return (placeholder t d), logged w (request p))
          | Return c =>
              match new_Blog (Date_now env n) t d c with
              | None => (Return (placeholder t d), logged w (request p))
              | Some doc =>
                  if accepts env n doc
                  then (Return (Document doc), stored w (request p) doc)
                  else (Return (placeholder t d), logged w (request p))
              end
          end
      end
  end.
Proof.
  unfold generateBlog, bind, lift at 1.
  destruct (prompt t d) as [p|e]; [|reflexivity].
  unfold try_catch, bind, await_chatCompletion, lift, save, ret.
  cbn [db sent].
  destruct (chatCompletion env _ _) as [response|e]; [|reflexivity].
  destruct (content_of response) as [c|e]; [|reflexivity].
  destruct (new_Blog _ t d c) as [doc|]; [|reflexivity].
  destruct (accepts env _ doc); reflexivity.
Qed.

(** A call whose prompt cannot be built throws and leaves the state as
    it was; any other call returns, logs exactly one request and writes
    at most one document, after the ones already stored. *)
Lemma generateBlog_effect (env : Env) (t d : jsval) (w : World) :
  match prompt t d with
  | Throw e => generateBlog env t d w = (Throw e, w)
  | Return p =>
      exists g added,
        generateBlog env t d w =
          (Return g, {| db := db w ++ added; sent := sent w ++ [request p] |})
        /\ (added = [] /\ g = placeholder t d
            \/ exists doc, added = [doc] /\ g = Document doc)
  end.
Proof.
  rewrite generateBlog_cases.
  destruct (prompt t d) as [p|e]; [|reflexivity]; cbv zeta.
  assert (Hlog : logged w (request p)
                 = {| db := db w ++ []; sent := sent w ++ [request p] |})
    by (unfold logged; now rewrite app_nil_r).
  destruct (chatCompletion env _ _) as [response|e];
    [|exists (placeholder t d), []; rewrite Hlog; auto].
  destruct (content_of response) as [c|e];
    [|exists (placeholder t d), []; rewrite Hlog; auto].
  destruct (new_Blog _ t d c) as [doc|];
    [|exists (placeholder t d), []; rewrite Hlog; auto].
  destruct (accepts env _ doc);
    [|exists (placeholder t d), []; rewrite Hlog; auto].
  exists (Document doc), [doc]; split; [reflexivity|right; eauto].
Qed.

Lemma prompt_of_strings (ts ds : jsstring) :
  prompt (JStr ts) (JStr ds) = Return (prompt_text ts ds).
Proof. reflexivity. Qed.

(** The computed content is always a non-empty string, which the
    store's cast keeps as it is. *)
Lemma content_of_text (response c : jsval) :
  content_of response = Return c ->
  c = JStr (trimmed_or_sentinel (first_text response))
  /\ trimmed_or_sentinel (first_text response) <> [].
Proof.
  unfold content_of, opt_trim, js_or, trimmed_or_sentinel.
  destruct (first_text response) as [| |b|n|s|l|o]; try discriminate;
    intros H; injection H as <-; cbn.
  1,2: split; [reflexivity|discriminate].
  destruct (trim s); cbn; split; try reflexivity; discriminate.
Qed.

Lemma content_of_defined (response : jsval) :
  is_text_or_absent (first_text response) = true ->
  content_of response = Return (JStr (trimmed_or_sentinel (first_text response))).
Proof.
  unfold content_of, opt_trim, js_or, trimmed_or_sentinel, is_text_or_absent.
  destruct (first_text response) as [| |b|n|s|l|o]; try discriminate;
    intros _; try reflexivity.
  cbn. destruct (trim s); reflexivity.
Qed.

(** *** What [trim] leaves *)

Lemma trimStart_head (s : jsstring) (c : N) (rest : jsstring) :
  trimStart s = c :: rest -> is_space c = false.
Proof.
  induction s as [|x s IH]; cbn; [discriminate|].
  destruct (is_space x) eqn:E; [exact IH|].
  intros H; injection H as <- _; exact E.
Qed.

Lemma trimStart_snoc (s : jsstring) (c : N) :
  is_space c = false -> trimStart (s ++ [c]) = trimStart s ++ [c].
Proof.
  intros Hc; induction s as [|x s IH]; cbn; [now rewrite Hc|].
  destruct (is_space x); [exact IH|reflexivity].
Qed.

Lemma trim_head (s : jsstring) (c : N) (rest : jsstring) :
  trim s = c :: rest -> is_space c = false.
Proof.
  unfold trim, trimEnd.
  destruct (trimStart s) as [|x s'] eqn:E; [discriminate|].
  pose proof (trimStart_head _ E) as Hx.
  cbn [rev]; rewrite trimStart_snoc by exact Hx; rewrite rev_app_distr; cbn.
  intros H; injection H as <- _; exact Hx.
Qed.

Lemma trim_last (s : jsstring) (c : N) (front : jsstring) :
  trim s = front ++ [c] -> is_space c = false.
Proof.
  unfold trim, trimEnd; intros H.
  apply (f_equal (@rev N)) in H.
  rewrite rev_involutive, rev_app_distr in H; cbn in H.
  exact (trimStart_head _ H).
Qed.

Example trim_sample :
  trim (str "  Closures capture variables.  ") = str "Closures capture variables.".
Proof. reflexivity. Qed.

Example trim_blank : trim [32; 9; 10; 160; 8232; 65279]%N = [].
Proof. reflexivity. Qed.

(** *** Failure of the inference call *)

(** C1, as the specification states it, does not hold: a call whose
    inference request throws returns the placeholder, but no document
    with the failure text reaches the collection. *)
Lemma failed_call_is_not_persisted :
  ~ (forall (env : Env) (t d : jsval) (w : World) (p : jsstring) (e : error),
        prompt t d = Return p ->
        chatCompletion env (List.length (sent w)) (request p) = Throw e ->
        exists g w',
          generateBlog env t d w = (Return g, w')
          /\ content_in g = JStr failed
          /\ exists doc, In doc (db w') /\ content doc = JStr failed).
Proof.
  intros H.
  destruct (H env_api_down (JStr (str "Closures")) (JStr (str "in JS"))
              empty_world _ InferenceError eq_refl eq_refl)
    as (g & w' & Hrun & _ & doc & Hin & _).
  vm_compute in Hrun; injection Hrun as _ <-.
  exact Hin.
Qed.

(** C1, amended: when the inference call throws, [generateBlog] still
    returns a record with the given title and details whose content is
    "Failed to generate blog."; that record is only returned, the
    collection is left as it was.  (The inference call is made for the
    prompt [p] built from the title and the details.) *)
Theorem failed_call_returns_unsaved_placeholder
    (env : Env) (t d : jsval) (w : World) (p : jsstring) (e : error) :
  prompt t d = Return p ->
  chatCompletion env (List.length (sent w)) (request p) = Throw e ->
  exists g w',
    generateBlog env t d w = (Return g, w')
    /\ content_in g = JStr failed
    /\ g = placeholder t d
    /\ db w' = db w.
Proof.
  intros Hp Hthrow.
  exists (placeholder t d), (logged w (request p)).
  rewrite generateBlog_cases, Hp; cbv zeta; rewrite Hthrow.
  repeat split.
Qed.

Lemma failed_call_returns_unsaved_placeholder_witness :
  let t := JStr (str "Closures") in
  let d := JStr (str "in JS") in
  let p := prompt_text (str "Closures") (str "in JS") in
  prompt t d = Return p
  /\ chatCompletion env_api_down (List.length (sent empty_world)) (request p)
     = Throw InferenceError
  /\ exists g w',
       generateBlog env_api_down t d empty_world = (Return g, w')
       /\ content_in g = JStr failed
       /\ g = placeholder t d
       /\ db w' = db empty_world.
Proof.
  intros t d p.
  split; [reflexivity|]. split; [reflexivity|].
  apply (@failed_call_returns_unsaved_placeholder env_api_down t d empty_world p
           InferenceError); reflexivity.
Defined.

(** C10: when the inference call throws, nothing is written for the
    item, and the object returned has the members [title], [details]
    and [content] and no others; it has no [createdAt].  (The inference
    call is made for the prompt [p] built from the title and the
    details.) *)
Theorem failed_call_plain_object
    (env : Env) (t d : jsval) (w : World) (p : jsstring) (e : error) :
  prompt t d = Return p ->
  chatCompletion env (List.length (sent w)) (request p) = Throw e ->
  exists members w',
    generateBlog env t d w = (Return (PlainObject members), w')
    /\ map fst members = [str "title"; str "details"; str "content"]
    /\ ~ In (str "createdAt") (map fst members)
    /\ lookup (str "createdAt") members = JUndefined
    /\ db w' = db w.
Proof.
  intros Hp Hthrow.
  eexists _, (logged w (request p)).
  rewrite generateBlog_cases, Hp; cbv zeta; rewrite Hthrow.
  split; [reflexivity|].
  split; [reflexivity|].
  split; [|split; reflexivity].
  cbn; intros [H|[H|[H|[]]]]; discriminate H.
Qed.

Lemma failed_call_plain_object_witness :
  let t := JStr (str "Closures") in
  let p := prompt_text (str "Closures") (str "undefined") in
  prompt t JUndefined = Return p
  /\ chatCompletion env_api_down (List.length (sent empty_world)) (request p)
     = Throw InferenceError
  /\ exists members w',
       generateBlog env_api_down t JUndefined empty_world
         = (Return (PlainObject members), w')
       /\ map fst members = [str "title"; str "details"; str "content"]
       /\ ~ In (str "createdAt") (map fst members)
       /\ lookup (str "createdAt") members = JUndefined
       /\ db w' = db empty_world.
Proof.
  intros t p.
  split; [reflexivity|]. split; [reflexivity|].
  apply (@failed_call_plain_object env_api_down t JUndefined empty_world p
           InferenceError); reflexivity.
Defined.

(** *** Success of the inference call *)

(** C5, as the specification states it, does not hold: the inference
    call can succeed and the write still be rejected, in which case the
    [catch] branch runs and nothing is persisted. *)
Lemma answered_call_may_persist_nothing :
  ~ (forall (env : Env) (t d : jsval) (w : World) (p : jsstring)
            (response : jsval),
        prompt t d = Return p ->
        chatCompletion env (List.length (sent w)) (request p) = Return response ->
        exists doc,
          In doc (db (snd (generateBlog env t d w)))
          /\ title doc = t /\ details doc = d
          /\ exists s, content doc = JStr s /\ s <> []).
Proof.
  intros H.
  destruct (H env_store_down (JStr (str "Closures")) (JStr (str "in JS"))
              empty_world _ _ eq_refl eq_refl)
    as (doc & Hin & _).
  vm_compute in Hin.
  exact Hin.
Qed.

(** C5, amended: when the inference call succeeds with a first message
    text that is a string or absent, the title and details are strings
    and the collection accepts the write, exactly one record is
    appended to the collection; its content is a non-empty string and
    its title and details are the ones given. *)
Theorem accepted_write_persists_record
    (env : Env) (ts ds : jsstring) (w : World) (response : jsval) :
  let n := List.length (sent w) in
  let c := JStr (trimmed_or_sentinel (first_text response)) in
  chatCompletion env n (request (prompt_text ts ds)) = Return response ->
  is_text_or_absent (first_text response) = true ->
  accepts env n (mkBlog (JStr ts) (JStr ds) c (Date_now env n)) = true ->
  exists doc w',
    generateBlog env (JStr ts) (JStr ds) w = (Return (Document doc), w')
    /\ db w' = db w ++ [doc]
    /\ title doc = JStr ts /\ details doc = JStr ds
    /\ exists s, content doc = JStr s /\ s <> [].
Proof.
  intros n c Hcall Htext Hacc.
  pose proof (content_of_defined _ Htext) as Hc.
  destruct (content_of_text _ Hc) as [_ Hne].
  eexists _, _.
  rewrite generateBlog_cases, prompt_of_strings; cbv zeta.
  fold n; rewrite Hcall, Hc.
  unfold new_Blog; cbn [castString].
  fold c; rewrite Hacc.
  split; [reflexivity|]. cbn.
  split; [reflexivity|]. split; [reflexivity|]. split; [reflexivity|].
  exists (trimmed_or_sentinel (first_text response)); split; [reflexivity|exact Hne].
Qed.

Lemma accepted_write_persists_record_witness :
  let ts := str "Closures" in
  let ds := str "in JS" in
  let response := reply (str "  Closures capture variables.  ") in
  chatCompletion env_up 0 (request (prompt_text ts ds)) = Return response
  /\ is_text_or_absent (first_text response) = true
  /\ accepts env_up 0
       (mkBlog (JStr ts) (JStr ds)
          (JStr (trimmed_or_sentinel (first_text response))) (Date_now env_up 0)) = true
  /\ exists doc w',
       generateBlog env_up (JStr ts) (JStr ds) empty_world = (Return (Document doc), w')
       /\ db w' = db empty_world ++ [doc]
       /\ title doc = JStr ts /\ details doc = JStr ds
       /\ exists s, content doc = JStr s /\ s <> [].
Proof.
  intros ts ds response.
  split; [reflexivity|]. split; [reflexivity|]. split; [reflexivity|].
  apply (@accepted_write_persists_record env_up ts ds empty_world response);
    reflexivity.
Defined.

(** C7, as the specification states it, does not hold for every
    successful inference call: when the write that follows is rejected,
    nothing is stored and the content returned is the failure text, not
    the text of the first message. *)
Lemma answered_call_may_return_failure_text :
  ~ (forall (env : Env) (t d : jsval) (w : World) (p : jsstring)
            (response : jsval),
        prompt t d = Return p ->
        chatCompletion env (List.length (sent w)) (request p) = Return response ->
        is_text_or_absent (first_text response) = true ->
        exists g w',
          generateBlog env t d w = (Return g, w')
          /\ content_in g = JStr (trimmed_or_sentinel (first_text response))).
Proof.
  intros H.
  destruct (H env_store_down (JStr (str "Closures")) (JStr (str "in JS"))
              empty_world _ _ eq_refl eq_refl eq_refl)
    as (g & w' & Hrun & Hcontent).
  vm_compute in Hrun; injection Hrun as <- _.
  vm_compute in Hcontent; discriminate Hcontent.
Qed.

(** C7, amended: after a successful inference call, whenever
    [generateBlog] stores and returns a record, its content is the
    trimmed text of the first returned message, or "No content
    generated." when that text is absent or trims to the empty string.
    When the text is a string or absent the content is computed without
    error, and the document holding it is stored and returned as soon
    as the write is accepted.  (The inference call is made for the
    prompt [p] built from the title and the details.) *)
Theorem stored_content_is_trimmed_text_or_sentinel
    (env : Env) (t d : jsval) (w : World) (p : jsstring) (response : jsval) :
  let n := List.length (sent w) in
  let c := JStr (trimmed_or_sentinel (first_text response)) in
  prompt t d = Return p ->
  chatCompletion env n (request p) = Return response ->
  (forall doc w',
      generateBlog env t d w = (Return (Document doc), w') ->
      content doc = c /\ In doc (db w'))
  /\ (is_text_or_absent (first_text response) = true ->
      content_of response = Return c
      /\ forall doc,
           new_Blog (Date_now env n) t d c = Some doc ->
           accepts env n doc = true ->
           generateBlog env t d w = (Return (Document doc), stored w (request p) doc)
           /\ content doc = c).
Proof.
  intros n c Hp Hcall; split.
  - intros doc w'.
    rewrite generateBlog_cases, Hp; cbv zeta; fold n; rewrite Hcall.
    destruct (content_of response) as [c'|e] eqn:Hc; [|discriminate].
    destruct (content_of_text _ Hc) as [-> _]; fold c.
    destruct (new_Blog _ t d c) as [doc'|] eqn:Hnew; [|discriminate].
    destruct (accepts env n doc'); [|discriminate].
    intros H; injection H as <- <-.
    unfold new_Blog in Hnew; cbn [castString] in Hnew.
    destruct (castString t), (castString d); try discriminate.
    injection Hnew as <-; split; [reflexivity|].
    cbn; apply in_or_app; right; now left.
  - intros Htext.
    pose proof (content_of_defined _ Htext) as Hc; fold c in Hc.
    split; [exact Hc|].
    intros doc Hnew Hacc.
    rewrite generateBlog_cases, Hp; cbv zeta; fold n; rewrite Hcall, Hc, Hnew, Hacc.
    split; [reflexivity|].
    unfold new_Blog in Hnew; cbn [castString] in Hnew.
    destruct (castString t), (castString d); try discriminate.
    now injection Hnew as <-.
Qed.

Lemma stored_content_is_trimmed_text_or_sentinel_witness :
  let t := JStr (str "Closures") in
  let d := JStr (str "in JS") in
  let p := prompt_text (str "Closures") (str "in JS") in
  let response := reply (str "  Closures capture variables.  ") in
  let c := JStr (str "Closures capture variables.") in
  prompt t d = Return p
  /\ chatCompletion env_up 0 (request p) = Return response
  /\ (forall doc w',
        generateBlog env_up t d empty_world = (Return (Document doc), w') ->
        content doc = c /\ In doc (db w'))
  /\ (is_text_or_absent (first_text response) = true ->
      content_of response = Return c
      /\ forall doc,
           new_Blog (Date_now env_up 0) t d c = Some doc ->
           accepts env_up 0 doc = true ->
           generateBlog env_up t d empty_world
             = (Return (Document doc), stored empty_world (request p) doc)
           /\ content doc = c).
Proof.
  intros t d p response c.
  split; [reflexivity|]. split; [reflexivity|].
  apply (@stored_content_is_trimmed_text_or_sentinel env_up t d empty_world p response);
    reflexivity.
Defined.

Example blank_text_gives_sentinel :
  fst (generateBlog env_up (JStr (str "Closures")) (JStr (str "in JS"))
         empty_world)
  = Return (Document (mkBlog (JStr (str "Closures")) (JStr (str "in JS"))
                        (JStr (str "Closures capture variables.")) 0))
  /\ content_of (reply [32; 10; 32]%N) = Return (JStr no_content)
  /\ content_of (JObj [(str "choices", JArr [])]) = Return (JStr no_content)
  /\ content_of (JObj [(str "choices",
                        JArr [JObj [(str "message",
                                     JObj [(str "content", JNull)])]])])
     = Return (JStr no_content).
Proof. repeat split. Qed.

(** The prompt is built outside the [try]: a title that cannot be
    converted to text makes the call throw before any request. *)
Example unconvertible_title_throws :
  generateBlog env_up (JObj [(str "toString", JNum (str "1"))]) (JStr (str "d"))
    empty_world
  = (Throw TypeError, empty_world).
Proof. reflexivity. Qed.

(** ** [POST /generate] *)

Lemma get_member_opt (b : jsval) (k : jsstring) :
  nullish b = false -> get_member b k = Return (opt_member b k).
Proof.
  unfold opt_member; destruct b; cbn; intros H; try discriminate; reflexivity.
Qed.

Lemma world_before_0 (env : Env) (w : World) (items : list jsval) :
  world_before env w items 0 = w.
Proof. destruct items; reflexivity. Qed.

Lemma valid_item_parts (b : jsval) :
  valid_item b = true ->
  nullish b = false /\ exists p, prompt_of b = Return p.
Proof.
  unfold valid_item, interpolates, prompt_of, prompt.
  destruct (nullish b); [discriminate|].
  destruct (toString (title_of b)) as [tt|e]; [|discriminate].
  destruct (toString (details_of b)) as [dt|e]; [|discriminate].
  intros _; split; [reflexivity|eauto].
Qed.

(** The loop on items it can generate: one result per item, each the
    outcome of [generateBlog] in the state the earlier items left. *)
Lemma generate_each_items (env : Env) (items : list jsval) :
  Forall (fun b => valid_item b = true) items ->
  forall (acc : list Generated) (w : World),
  exists results,
    generate_each env items acc w
      = (Return (acc ++ results), world_before env w items (List.length items))
    /\ List.length results = List.length items
    /\ forall i b,
         nth_error items i = Some b ->
         exists g,
           nth_error results i = Some g
           /\ generateBlog env (title_of b) (details_of b) (world_before env w items i)
              = (Return g, world_before env w items (S i)).
Proof.
  induction 1 as [|b rest Hb _ IH]; intros acc w.
  - exists []; cbn; rewrite app_nil_r; repeat split.
    intros [|i] b H; discriminate H.
  - destruct (valid_item_parts _ Hb) as [Hnn [p Hp]].
    pose proof (generateBlog_effect env (title_of b) (details_of b) w) as Heff.
    unfold prompt_of in Hp; rewrite Hp in Heff.
    destruct Heff as (g & added & Hrun & _).
    destruct (IH (acc ++ [g]) {| db := db w ++ added;
                                 sent := sent w ++ [request p] |})
      as (results & Hloop & Hlen & Hnth).
    exists (g :: results).
    cbn [generate_each]; unfold bind, lift at 1 2.
    rewrite !(@get_member_opt b _ Hnn).
    fold (title_of b) (details_of b); rewrite Hrun, Hloop.
    cbn [world_before List.length]; rewrite Hrun; cbn [snd].
    rewrite <- app_assoc; cbn [app].
    split; [reflexivity|]. split; [now rewrite Hlen|].
    intros [|i] b' Hi; cbn in Hi.
    + injection Hi as <-. exists g; split; [reflexivity|].
      rewrite world_before_0; exact Hrun.
    + destruct (Hnth i b' Hi) as (g' & Hg' & Hrun').
      exists g'; split; [exact Hg'|exact Hrun'].
Qed.


Lemma requests_of_valid (items : list jsval) :
  Forall (fun b => valid_item b = true) items ->
  List.length (requests_of items) = List.length items.
Proof.
  induction 1 as [|b rest Hb _ IH]; [reflexivity|].
  destruct (valid_item_parts _ Hb) as [_ [p Hp]].
  cbn; rewrite Hp; cbn; now rewrite IH.
Qed.



(** Whatever the items are, the loop only appends to the collection. *)
Lemma generate_each_appends (env : Env) (items : list jsval) :
  forall (acc : list Generated) (w : World),
  exists added, db (snd (generate_each env items acc w)) = db w ++ added.
Proof.
  induction items as [|b rest IH]; intros acc w.
  - exists []; cbn; now rewrite app_nil_r.
  - cbn [generate_each]; unfold bind, lift at 1 2.
    destruct (get_member b (str "title")) as [t|e];
      [|exists []; cbn; now rewrite app_nil_r].
    destruct (get_member b (str "details")) as [d|e];
      [|exists []; cbn; now rewrite app_nil_r].
    pose proof (generateBlog_effect env t d w) as Heff.
    destruct (prompt t d) as [p|e].
    + destruct Heff as (g & added & Hrun & _).
      rewrite Hrun.
      destruct (IH (acc ++ [g]) {| db := db w ++ added; sent := sent w ++ [request p] |})
        as (added' & Hdb).
      exists (added ++ added'); rewrite Hdb; cbn [db]; now rewrite app_assoc.
    + rewrite Heff; exists []; cbn; now rewrite app_nil_r.
Qed.

Lemma post_generate_items (env : Env) (w : World) (req_body : jsval)
    (items : list jsval) :
  carries_items req_body items ->
  exists results,
    post_generate env req_body w
      = (mkResponse 200 (ResultsJson results),
         world_before env w items (List.length items))
    /\ List.length results = List.length items
    /\ forall i b,
         nth_error items i = Some b ->
         exists g,
           nth_error results i = Some g
           /\ generateBlog env (title_of b) (details_of b) (world_before env w items i)
              = (Return g, world_before env w items (S i)).
Proof.
  intros [Hblogs Hitems].
  destruct (generate_each_items env Hitems [] w) as (results & Hloop & Hlen & Hnth).
  exists results; split; [|split; assumption].
  unfold post_generate, post_generate_try, bind, lift.
  rewrite Hblogs; cbn [truthy isArray negb orb elements_of].
  now rewrite Hloop.
Qed.


Lemma get_member_title (b t : jsval) (k : jsstring) :
  get_member b k = Return t -> nullish b = false /\ t = opt_member b k.
Proof.
  unfold opt_member; destruct b; cbn; intros H; try discriminate H;
    injection H as <-; split; reflexivity.
Qed.

(** Everything one call that returns has done, in one statement. *)
Lemma generateBlog_outcome (env : Env) (t d : jsval) (w : World) (p : jsstring) :
  prompt t d = Return p ->
  let n := List.length (sent w) in
  generateBlog env t d w = (Return (placeholder t d), logged w (request p))
  \/ exists response doc,
       generateBlog env t d w = (Return (Document doc), stored w (request p) doc)
       /\ chatCompletion env n (request p) = Return response
       /\ content doc = JStr (trimmed_or_sentinel (first_text response))
       /\ castString t = Some (title doc)
       /\ castString d = Some (details doc)
       /\ createdAt doc = Date_now env n
       /\ accepts env n doc = true.
Proof.
  intros Hp n; rewrite generateBlog_cases, Hp; cbv zeta; fold n.
  destruct (chatCompletion env n (request p)) as [response|e]; [|now left].
  destruct (content_of response) as [c|e] eqn:Hc; [|now left].
  destruct (content_of_text _ Hc) as [-> _].
  destruct (new_Blog _ t d _) as [doc|] eqn:Hnew; [|now left].
  destruct (accepts env n doc) eqn:Hacc; [|now left].
  right; exists response, doc.
  unfold new_Blog in Hnew; cbn [castString] in Hnew.
  destruct (castString t), (castString d); try discriminate.
  injection Hnew as <-; cbn; repeat split; exact Hacc.
Qed.

(** What a loop that ran to its end has done. *)
Lemma generate_each_returned (env : Env) (items : list jsval) :
  forall (acc results : list Generated) (w w' : World),
    generate_each env items acc w = (Return results, w') ->
    exists new,
      results = acc ++ new
      /\ List.length new = List.length items
      /\ db w' = db w ++ documents_of new
      /\ sent w' = sent w ++ requests_of items
      /\ Forall (fun b => valid_item b = true) items.
Proof.
  induction items as [|b rest IH]; intros acc results w w'.
  - cbn; intros H; injection H as <- <-.
    exists []; now rewrite !app_nil_r.
  - cbn [generate_each]; unfold bind, lift at 1 2.
    destruct (get_member b (str "title")) as [t|e] eqn:Ht; [|discriminate].
    destruct (get_member b (str "details")) as [d|e] eqn:Hd; [|discriminate].
    destruct (get_member_title _ _ Ht) as [Hb ->].
    destruct (get_member_title _ _ Hd) as [_ ->].
    fold (title_of b) (details_of b).
    pose proof (generateBlog_effect env (title_of b) (details_of b) w) as Heff.
    destruct (prompt (title_of b) (details_of b)) as [p|e] eqn:Hp;
      [|rewrite Heff; discriminate].
    clear Heff.
    assert (Hvalid : valid_item b = true).
    { unfold valid_item, interpolates; rewrite Hb; cbn.
      unfold prompt in Hp.
      destruct (toString (title_of b)); [|discriminate].
      destruct (toString (details_of b)); [reflexivity|discriminate]. }
    destruct (generateBlog_outcome env (title_of b) (details_of b) w Hp)
      as [Hrun|(response & doc & Hrun & _)]; rewrite Hrun; intros Hloop;
      destruct (IH _ _ _ _ Hloop) as (new & -> & Hlen & Hdb & Hsent & Hok);
      [exists (placeholder (title_of b) (details_of b) :: new)
      |exists (Document doc :: new)];
      rewrite <- app_assoc; (split; [reflexivity|]);
      (split; [cbn; now rewrite Hlen|]);
      rewrite Hdb, Hsent;
      cbn [logged stored db sent documents_of placeholder requests_of];
      unfold prompt_of; rewrite Hp; rewrite <- ?app_assoc;
      repeat split; now constructor.
Qed.

(** C2: a valid request, whose body carries a list of [N] items with a
    title and details the loop can generate, is answered with status
    200 and an array of exactly [N] results, and the result at position
    [i] is what [generateBlog] returns for the title and details of
    item [i], the items being generated in the order submitted. *)
Theorem batch_response_in_order
    (env : Env) (w : World) (req_body : jsval) (items : list jsval) :
  carries_items req_body items ->
  exists results w',
    post_generate env req_body w = (mkResponse 200 (ResultsJson results), w')
    /\ List.length results = List.length items
    /\ forall i b,
         nth_error items i = Some b ->
         exists g,
           nth_error results i = Some g
           /\ fst (generateBlog env (title_of b) (details_of b)
                     (world_before env w items i)) = Return g.
Proof.
  intros Hitems.
  destruct (post_generate_items env w Hitems) as (results & Hpost & Hlen & Hnth).
  exists results, (world_before env w items (List.length items)).
  split; [exact Hpost|]. split; [exact Hlen|].
  intros i b Hi.
  destruct (Hnth i b Hi) as (g & Hg & Hrun).
  exists g; split; [exact Hg|now rewrite Hrun].
Qed.

Lemma batch_response_in_order_witness :
  let items := [item "Closures" "in JS"; item "Promises" "async basics"] in
  let req_body := JObj [(str "blogs", JArr items)] in
  carries_items req_body items
  /\ exists results w',
       post_generate env_up req_body empty_world
         = (mkResponse 200 (ResultsJson results), w')
       /\ List.length results = List.length items
       /\ forall i b,
            nth_error items i = Some b ->
            exists g,
              nth_error results i = Some g
              /\ fst (generateBlog env_up (title_of b) (details_of b)
                        (world_before env_up empty_world items i)) = Return g.
Proof.
  intros items req_body.
  assert (H : carries_items req_body items)
    by (split; [reflexivity|repeat constructor]).
  split; [exact H|].
  exact (@batch_response_in_order env_up empty_world req_body items H).
Defined.

Example empty_batch :
  post_generate env_up (JObj [(str "blogs", JArr [])]) empty_world
  = (mkResponse 200 (ResultsJson []), empty_world).
Proof. reflexivity. Qed.

(** A batch with an item whose title cannot be converted to text is
    not such a request: the call for that item throws outside the
    [try] of [generateBlog], the route answers 500, and only the items
    before it have been generated. *)
Example unconvertible_item_aborts :
  let r := post_generate env_up
             (body_of [item "Closures" "in JS"; odd_item;
                       item "Promises" "async basics"])
             empty_world in
  fst r = mkResponse 500 (ErrorJson server_error)
  /\ List.length (db (snd r)) = 1%nat /\ List.length (sent (snd r)) = 1%nat.
Proof. repeat split. Qed.



Example flaky_batch :
  let items := [item "Closures" "in JS"; item "Promises" "async basics";
                item "Generators" "lazy sequences"] in
  let text := JStr (str "Closures capture variables.") in
  post_generate env_flaky (JObj [(str "blogs", JArr items)]) empty_world
  = (mkResponse 200
       (ResultsJson
          [ Document (mkBlog (JStr (str "Closures")) (JStr (str "in JS")) text 0);
            placeholder (JStr (str "Promises")) (JStr (str "async basics"));
            Document (mkBlog (JStr (str "Generators")) (JStr (str "lazy sequences"))
                        text 2) ]),
     mkWorld
       [ mkBlog (JStr (str "Closures")) (JStr (str "in JS")) text 0;
         mkBlog (JStr (str "Generators")) (JStr (str "lazy sequences")) text 2 ]
       (requests_of items)).
Proof. reflexivity. Qed.

(** An item that is [null] is not a generation failure: reading its
    title throws outside [generateBlog], the route answers 500, and the
    items before it have been generated and stored. *)
Example null_item_aborts :
  let w' := snd (post_generate env_up
                   (JObj [(str "blogs", JArr [item "Closures" "in JS"; JNull;
                                              item "Promises" "async basics"])])
                   empty_world) in
  fst (post_generate env_up
         (JObj [(str "blogs", JArr [item "Closures" "in JS"; JNull;
                                    item "Promises" "async basics"])])
         empty_world)
  = mkResponse 500 (ErrorJson server_error)
  /\ List.length (db w') = 1%nat /\ List.length (sent w') = 1%nat.
Proof. repeat split. Qed.




(** A request without a parsed body is not a bad request but a server
    error: destructuring [undefined] throws inside the [try]. *)
Example no_body_is_server_error :
  post_generate env_up JUndefined empty_world
  = (mkResponse 500 (ErrorJson server_error), empty_world).
Proof. reflexivity. Qed.

Lemma post_generate_appends (env : Env) (w : World) (req_body : jsval) :
  exists added, db (snd (post_generate env req_body w)) = db w ++ added.
Proof.
  unfold post_generate, post_generate_try, bind, lift.
  destruct (get_member req_body (str "blogs")) as [blogs|e];
    [|exists []; cbn; now rewrite app_nil_r].
  destruct (negb (truthy blogs) || negb (isArray blogs));
    [exists []; cbn; now rewrite app_nil_r|].
  destruct (generate_each_appends env (elements_of blogs) [] w) as (added & Hdb).
  exists added; rewrite <- Hdb.
  destruct (generate_each env (elements_of blogs) [] w) as [[results|e] w'];
    reflexivity.
Qed.

(** ** [GET /blog] *)

Lemma insert_desc_perm (tie : TieOrder) (x : Blog) (l : list Blog) :
  Permutation (x :: l) (insert_desc tie x l).
Proof.
  induction l as [|y l IH]; cbn; [reflexivity|].
  destruct ((createdAt y <? createdAt x)%Z
            || (createdAt y =? createdAt x)%Z && tie x y); [reflexivity|].
  rewrite perm_swap; now constructor.
Qed.

Lemma sort_desc_perm (tie : TieOrder) (l : list Blog) :
  Permutation l (sort_desc tie l).
Proof.
  induction l as [|x l IH]; cbn; [constructor|].
  rewrite <- insert_desc_perm; now constructor.
Qed.

Lemma insert_desc_sorted (tie : TieOrder) (x : Blog) (l : list Blog) :
  StronglySorted newer_first l -> StronglySorted newer_first (insert_desc tie x l).
Proof.
  induction 1 as [|y l Hl IH Hy]; cbn; [repeat constructor|].
  destruct ((createdAt y <? createdAt x)%Z
            || (createdAt y =? createdAt x)%Z && tie x y) eqn:E.
  - assert (Hle : (createdAt y <= createdAt x)%Z).
    { apply orb_true_iff in E; destruct E as [E|E].
      - apply Z.ltb_lt in E; lia.
      - apply andb_true_iff in E; destruct E as [E _].
        apply Z.eqb_eq in E; lia. }
    constructor; [now constructor|].
    constructor; [exact Hle|].
    eapply Forall_impl; [|exact Hy]; unfold newer_first; intros; lia.
  - apply orb_false_iff in E; destruct E as [E _].
    apply Z.ltb_ge in E.
    constructor; [exact IH|].
    eapply Permutation_Forall; [apply insert_desc_perm|].
    constructor; [exact E|exact Hy].
Qed.

Lemma sort_desc_sorted (tie : TieOrder) (l : list Blog) :
  StronglySorted newer_first (sort_desc tie l).
Proof.
  induction l as [|x l IH]; cbn; [constructor|now apply insert_desc_sorted].
Qed.

(** Lists sorted by date that hold the same records are equal, unless
    two records share a date. *)
Lemma sorted_perm_unique (l1 : list Blog) :
  forall l2,
    StronglySorted newer_first l1 ->
    StronglySorted newer_first l2 ->
    Permutation l1 l2 ->
    NoDup (map createdAt l1) ->
    l1 = l2.
Proof.
  induction l1 as [|x l1 IH]; intros l2 H1 H2 Hperm Hnodup.
  - now apply Permutation_nil in Hperm.
  - destruct l2 as [|y l2];
      [apply Permutation_sym, Permutation_nil in Hperm; discriminate|].
    inversion H1 as [|? ? Hs1 Hx]; subst.
    inversion H2 as [|? ? Hs2 Hy]; subst.
    inversion Hnodup as [|? ? Hnotin Hnodup']; subst.
    assert (Hxy : x = y).
    { assert (Hinx : In x (y :: l2))
        by (apply (Permutation_in _ Hperm); now left).
      assert (Hiny : In y (x :: l1))
        by (apply (Permutation_in _ (Permutation_sym Hperm)); now left).
      destruct Hinx as [->|Hinx]; [reflexivity|].
      destruct Hiny as [->|Hiny]; [reflexivity|].
      exfalso; apply Hnotin.
      pose proof (proj1 (Forall_forall _ _) Hy x Hinx) as Hle1.
      pose proof (proj1 (Forall_forall _ _) Hx y Hiny) as Hle2.
      unfold newer_first in Hle1, Hle2.
      replace (createdAt x) with (createdAt y) by lia.
      now apply in_map. }
    subst y; f_equal.
    apply IH; try assumption.
    exact (Permutation_cons_inv Hperm).
Qed.

(** C3: whatever the collection holds and in whatever order it was
    filled, and however the database orders records of equal date,
    [GET /blog] answers 200 with all the stored records, each exactly
    once, ordered by [createdAt] descending. *)
Theorem get_blog_newest_first (tie : TieOrder) (w : World) :
  exists blogs,
    fst (get_blog tie w) = mkResponse 200 (BlogsJson blogs)
    /\ Permutation (db w) blogs
    /\ StronglySorted newer_first blogs.
Proof.
  exists (sort_desc tie (db w)); split; [reflexivity|].
  split; [apply sort_desc_perm|apply sort_desc_sorted].
Qed.

Example get_blog_shuffled :
  fst (get_blog first_wins shuffled_world)
  = mkResponse 200
      (BlogsJson
         [ mkBlog (JStr (str "third")) (JStr []) (JStr (str "c")) 30;
           mkBlog (JStr (str "second")) (JStr []) (JStr (str "b")) 20;
           mkBlog (JStr (str "first")) (JStr []) (JStr (str "a")) 10 ]).
Proof. reflexivity. Qed.

(** C8, as the specification states it, does not hold: the handler
    sorts by [createdAt] only, so the order of records of equal date is
    the database's choice on each read, and two reads of the same
    collection can list them differently. *)
Lemma repeated_listing_may_differ :
  ~ (forall (tie1 tie2 : TieOrder) (w : World),
        fst (get_blog tie2 (snd (get_blog tie1 w))) = fst (get_blog tie1 w)).
Proof.
  intros H.
  specialize (H first_wins last_wins tied_world).
  vm_compute in H; discriminate H.
Qed.

(** C8, amended: [GET /blog] never modifies the collection; when the
    database answers the reads of two calls in a row with no write
    between them, both calls answer with the same records, newest
    first both times, and the two answers are identical whenever no two
    stored records have the same [createdAt]. *)
Theorem get_blog_twice (read1 read2 : ReadOutcome) (w : World) :
  let first := get_blog_route read1 w in
  let second := get_blog_route read2 (snd first) in
  snd first = w
  /\ snd second = w
  /\ forall tie1 tie2,
       read1 = ReadAnswers tie1 ->
       read2 = ReadAnswers tie2 ->
       (exists l1 l2,
          fst first = Some (mkResponse 200 (BlogsJson l1))
          /\ fst second = Some (mkResponse 200 (BlogsJson l2))
          /\ Permutation (db w) l1
          /\ Permutation l1 l2
          /\ StronglySorted newer_first l1
          /\ StronglySorted newer_first l2)
       /\ (NoDup (map createdAt (db w)) -> fst second = fst first).
Proof.
  intros first second.
  assert (H1 : snd first = w) by (unfold first; destruct read1; reflexivity).
  assert (H2 : snd second = w)
    by (unfold second; rewrite H1; destruct read2; reflexivity).
  split; [exact H1|]. split; [exact H2|].
  intros tie1 tie2 -> ->; cbn.
  assert (Hperm : Permutation (sort_desc tie1 (db w)) (sort_desc tie2 (db w)))
    by (rewrite <- !sort_desc_perm; reflexivity).
  split.
  - exists (sort_desc tie1 (db w)), (sort_desc tie2 (db w)).
    split; [reflexivity|]. split; [reflexivity|].
    split; [apply sort_desc_perm|]. split; [exact Hperm|].
    split; apply sort_desc_sorted.
  - intros Hnodup; do 3 f_equal; symmetry.
    apply sorted_perm_unique; try apply sort_desc_sorted; [exact Hperm|].
    eapply Permutation_NoDup; [|exact Hnodup].
    apply Permutation_map, sort_desc_perm.
Qed.

Example distinct_dates_list_alike :
  fst (get_blog last_wins (snd (get_blog first_wins shuffled_world)))
  = fst (get_blog first_wins shuffled_world)
  /\ NoDup (map createdAt (db shuffled_world)).
Proof.
  split; [reflexivity|].
  cbn; repeat constructor; cbn; intuition discriminate.
Qed.

(** ** The collection over time *)

(** C9: no operation updates or deletes a stored record.  After
    [POST /generate], whatever the request and however it ends, and
    after [GET /blog], the collection is the old one followed by the
    records added, so every record that was present is still there, at
    its place and unchanged. *)
Theorem store_is_append_only
    (env : Env) (tie : TieOrder) (w : World) (req_body : jsval) :
  (exists added, db (snd (post_generate env req_body w)) = db w ++ added)
  /\ db (snd (get_blog tie w)) = db w
  /\ forall i doc,
       nth_error (db w) i = Some doc ->
       nth_error (db (snd (post_generate env req_body w))) i = Some doc
       /\ nth_error (db (snd (get_blog tie w))) i = Some doc.
Proof.
  destruct (post_generate_appends env w req_body) as (added & Hdb).
  split; [now exists added|]. split; [reflexivity|].
  intros i doc Hi; split; [|exact Hi].
  rewrite Hdb, nth_error_app1; [exact Hi|].
  apply nth_error_Some; now rewrite Hi.
Qed.

(** * Further properties *)

(** ** More on [trim] *)

Lemma trimStart_kept (s : jsstring) :
  (forall c rest, s = c :: rest -> is_space c = false) -> trimStart s = s.
Proof.
  destruct s as [|c rest]; [reflexivity|].
  intros H; cbn; now rewrite (H c rest eq_refl).
Qed.

Lemma trimStart_idem (s : jsstring) : trimStart (trimStart s) = trimStart s.
Proof.
  apply trimStart_kept; intros c rest H; exact (trimStart_head _ H).
Qed.

Lemma trim_idem (s : jsstring) : trim (trim s) = trim s.
Proof.
  assert (H : trimStart (trim s) = trim s)
    by (apply trimStart_kept; intros c rest E; exact (trim_head _ E)).
  unfold trim at 1; rewrite H.
  unfold trim, trimEnd; now rewrite rev_involutive, trimStart_idem.
Qed.

Lemma trimStart_split (s : jsstring) :
  exists pre, s = pre ++ trimStart s /\ all_space pre.
Proof.
  induction s as [|c s (pre & Hs & Hpre)]; [exists []; split; constructor|].
  cbn; destruct (is_space c) eqn:E.
  - exists (c :: pre); split; [cbn; now rewrite <- Hs|now constructor].
  - exists []; split; constructor.
Qed.

(** [trim] removes white space from the two ends and nothing else. *)
Lemma trim_split (s : jsstring) :
  exists pre post, s = pre ++ trim s ++ post /\ all_space pre /\ all_space post.
Proof.
  destruct (trimStart_split s) as (pre & Hs & Hpre).
  destruct (trimStart_split (rev (trimStart s))) as (post & Hr & Hpost).
  exists pre, (rev post); split; [|split; [exact Hpre|now apply Forall_rev]].
  unfold trim, trimEnd; rewrite <- rev_app_distr, <- Hr, rev_involutive.
  exact Hs.
Qed.

Lemma trimmed_or_sentinel_trimmed (v : jsval) :
  trim (trimmed_or_sentinel v) = trimmed_or_sentinel v.
Proof.
  destruct v as [| |b|n|s|l|o]; try reflexivity.
  unfold trimmed_or_sentinel.
  destruct (trim s) as [|c rest] eqn:E; [reflexivity|].
  rewrite <- E; apply trim_idem.
Qed.

(** ** More on [generateBlog] *)

Lemma document_well_formed (response : jsval) (doc : Blog) :
  content doc = JStr (trimmed_or_sentinel (first_text response)) ->
  well_formed doc.
Proof.
  intros H; exists (trimmed_or_sentinel (first_text response)).
  split; [exact H|split; [|apply trimmed_or_sentinel_trimmed]].
  unfold trimmed_or_sentinel.
  destruct (first_text response); try discriminate.
  destruct (trim s); discriminate.
Qed.

Lemma prompt_built (t d : jsval) :
  interpolates t && interpolates d
  = match prompt t d with Return _ => true | Throw _ => false end.
Proof.
  unfold interpolates, prompt.
  destruct (toString t); [|reflexivity].
  destruct (toString d); reflexivity.
Qed.

(** X1: [generateBlog] throws exactly when the title or the details
    cannot be interpolated into the prompt, and then no request has
    been sent and nothing written: the state is the one it started in.
    Every other call returns, sends exactly one inference request, and
    either returns the placeholder and leaves the collection unchanged
    or returns a document and appends exactly that document. *)
Theorem generateBlog_throws_only_before_request
    (env : Env) (t d : jsval) (w : World) :
  (interpolates t && interpolates d = false ->
   exists e, generateBlog env t d w = (Throw e, w))
  /\ (interpolates t && interpolates d = true ->
      exists p g w',
        prompt t d = Return p
        /\ generateBlog env t d w = (Return g, w')
        /\ sent w' = sent w ++ [request p]
        /\ (g = placeholder t d /\ db w' = db w
            \/ exists doc,
                 g = Document doc /\ db w' = db w ++ [doc]
                 /\ createdAt doc = Date_now env (List.length (sent w)))).
Proof.
  rewrite prompt_built; split.
  - pose proof (generateBlog_effect env t d w) as Heff.
    destruct (prompt t d) as [p|e]; [discriminate|eauto].
  - destruct (prompt t d) as [p|e] eqn:Hp; [intros _|discriminate].
    exists p.
    destruct (generateBlog_outcome env t d w Hp)
      as [Hrun|(response & doc & Hrun & _ & _ & _ & _ & Hdate & _)];
      rewrite Hrun; eexists _, _; (split; [reflexivity|]);
      (split; [reflexivity|]); (split; [reflexivity|]).
    + now left.
    + right; exists doc; repeat split; exact Hdate.
Qed.

(** X2: a reply whose first message has a content that is present but
    is not a string (a number, a boolean, an array, an object) is a
    generation failure: the placeholder is returned and nothing is
    written.  (The inference call is made for the prompt [p] built
    from the title and the details.) *)
Theorem non_text_content_is_failure
    (env : Env) (t d : jsval) (w : World) (p : jsstring) (response : jsval) :
  prompt t d = Return p ->
  chatCompletion env (List.length (sent w)) (request p) = Return response ->
  is_text_or_absent (first_text response) = false ->
  generateBlog env t d w = (Return (placeholder t d), logged w (request p))
  /\ db (snd (generateBlog env t d w)) = db w.
Proof.
  intros Hp Hcall Htext.
  assert (Hrun : generateBlog env t d w
                 = (Return (placeholder t d), logged w (request p))).
  { rewrite generateBlog_cases, Hp; cbv zeta; rewrite Hcall.
    unfold content_of, opt_trim.
    destruct (first_text response); try discriminate Htext; reflexivity. }
  now rewrite Hrun.
Qed.

Lemma non_text_content_is_failure_witness :
  let t := JStr (str "Closures") in
  let d := JStr (str "in JS") in
  let p := prompt_text (str "Closures") (str "in JS") in
  let response := reply_with (JArr [JStr (str "part")]) in
  prompt t d = Return p
  /\ chatCompletion env_odd_reply (List.length (sent empty_world)) (request p)
     = Return response
  /\ is_text_or_absent (first_text response) = false
  /\ generateBlog env_odd_reply t d empty_world
     = (Return (placeholder t d), logged empty_world (request p))
  /\ db (snd (generateBlog env_odd_reply t d empty_world)) = db empty_world.
Proof.
  intros t d p response.
  split; [reflexivity|]. split; [reflexivity|]. split; [reflexivity|].
  apply (@non_text_content_is_failure env_odd_reply t d empty_world p response);
    reflexivity.
Defined.

(** X3: a write the collection rejects is reported exactly like a
    failed inference call: the same placeholder, nothing stored, so the
    caller cannot tell the two apart.  (The inference call is made for
    the prompt [p] built from the title and the details.) *)
Theorem rejected_write_is_failure
    (env : Env) (t d : jsval) (w : World) (p : jsstring)
    (response c : jsval) (doc : Blog) :
  let n := List.length (sent w) in
  prompt t d = Return p ->
  chatCompletion env n (request p) = Return response ->
  content_of response = Return c ->
  new_Blog (Date_now env n) t d c = Some doc ->
  accepts env n doc = false ->
  generateBlog env t d w = (Return (placeholder t d), logged w (request p))
  /\ db (snd (generateBlog env t d w)) = db w
  /\ content_in (placeholder t d) = JStr failed.
Proof.
  intros n Hp Hcall Hc Hnew Hacc.
  assert (Hrun : generateBlog env t d w
                 = (Return (placeholder t d), logged w (request p))).
  { rewrite generateBlog_cases, Hp; cbv zeta; fold n.
    now rewrite Hcall, Hc, Hnew, Hacc. }
  rewrite Hrun; repeat split.
Qed.

Lemma rejected_write_is_failure_witness :
  let t := JStr (str "Closures") in
  let d := JStr (str "in JS") in
  let p := prompt_text (str "Closures") (str "in JS") in
  let c := JStr (str "Closures capture variables.") in
  let response := reply (str "Closures capture variables.") in
  let doc := mkBlog t d c 0 in
  prompt t d = Return p
  /\ chatCompletion env_store_down 0 (request p) = Return response
  /\ content_of response = Return c
  /\ new_Blog (Date_now env_store_down 0) t d c = Some doc
  /\ accepts env_store_down 0 doc = false
  /\ generateBlog env_store_down t d empty_world
     = (Return (placeholder t d), logged empty_world (request p))
  /\ db (snd (generateBlog env_store_down t d empty_world)) = db empty_world
  /\ content_in (placeholder t d) = JStr failed.
Proof.
  intros t d p c response doc.
  split; [reflexivity|]. split; [reflexivity|]. split; [reflexivity|].
  split; [reflexivity|]. split; [reflexivity|].
  apply (@rejected_write_is_failure env_store_down t d empty_world p response c doc);
    reflexivity.
Defined.

(** X4: whatever the inference API answers, the content of a document
    that [generateBlog] stores is a non-empty string without white
    space at either end; and when the first message text is a string
    that does not trim to nothing, the content is that text with only
    white space taken off its two ends. *)
Theorem stored_content_is_clean
    (env : Env) (t d : jsval) (w w' : World) (doc : Blog) :
  generateBlog env t d w = (Return (Document doc), w') ->
  well_formed doc
  /\ exists p response,
       prompt t d = Return p
       /\ chatCompletion env (List.length (sent w)) (request p) = Return response
       /\ forall txt,
            first_text response = JStr txt ->
            trim txt <> [] ->
            exists pre post,
              txt = pre ++ trim txt ++ post
              /\ content doc = JStr (trim txt)
              /\ all_space pre /\ all_space post.
Proof.
  intros Hrun.
  pose proof (generateBlog_effect env t d w) as Heff.
  destruct (prompt t d) as [p|e] eqn:Hp;
    [clear Heff|rewrite Hrun in Heff; discriminate Heff].
  destruct (generateBlog_outcome env t d w Hp)
    as [Hpl|(response & doc' & Hd & Hcall & Hcontent & _)];
    rewrite Hrun in *; [discriminate Hpl|].
  injection Hd as <- _.
  split; [exact (document_well_formed _ _ Hcontent)|].
  exists p, response; split; [reflexivity|]. split; [exact Hcall|].
  intros txt Htxt Hne.
  destruct (trim_split txt) as (pre & post & Hsplit & Hpre & Hpost).
  exists pre, post; split; [exact Hsplit|].
  split; [|now split].
  rewrite Hcontent, Htxt; cbn.
  destruct (trim txt); [now elim Hne|reflexivity].
Qed.

Lemma stored_content_is_clean_witness :
  let t := JStr (str "Closures") in
  let d := JStr (str "in JS") in
  let doc := mkBlog t d (JStr (str "Closures capture variables.")) 0 in
  let w' := stored empty_world (request (prompt_text (str "Closures") (str "in JS")))
              doc in
  generateBlog env_up t d empty_world = (Return (Document doc), w')
  /\ well_formed doc
  /\ exists p response,
       prompt t d = Return p
       /\ chatCompletion env_up (List.length (sent empty_world)) (request p)
          = Return response
       /\ forall txt,
            first_text response = JStr txt ->
            trim txt <> [] ->
            exists pre post,
              txt = pre ++ trim txt ++ post
              /\ content doc = JStr (trim txt)
              /\ all_space pre /\ all_space post.
Proof.
  intros t d doc w'.
  split; [reflexivity|].
  apply (@stored_content_is_clean env_up t d empty_world w' doc).
  reflexivity.
Defined.

(** ** More on [POST /generate] *)

Lemma generate_each_acc (env : Env) (items : list jsval) :
  forall (acc : list Generated) (w : World),
    generate_each env items acc w
    = match generate_each env items [] w with
      | (Return results, w') => (Return (acc ++ results), w')
      | (Throw e, w') => (Throw e, w')
      end.
Proof.
  induction items as [|b rest IH]; intros acc w.
  - cbn; now rewrite app_nil_r.
  - cbn [generate_each]; unfold bind, lift at 1 2 3 4.
    destruct (get_member b (str "title")) as [t|e]; [|reflexivity].
    destruct (get_member b (str "details")) as [d|e]; [|reflexivity].
    pose proof (generateBlog_effect env t d w) as Heff.
    destruct (prompt t d) as [p|e]; [|now rewrite Heff].
    destruct Heff as (g & added & Hrun & _).
    rewrite Hrun, (IH (acc ++ [g])), (IH ([] ++ [g])).
    destruct (generate_each env rest [] _) as [[results|e] w']; [|reflexivity].
    now rewrite <- app_assoc.
Qed.

(** The loop over a list put together from two runs one after the
    other. *)
Lemma generate_each_app (env : Env) (first second : list jsval) :
  forall (acc : list Generated) (w : World),
    generate_each env (first ++ second) acc w
    = match generate_each env first acc w with
      | (Return results, w') => generate_each env second results w'
      | (Throw e, w') => (Throw e, w')
      end.
Proof.
  induction first as [|b rest IH]; intros acc w; [reflexivity|].
  cbn [app generate_each]; unfold bind, lift at 1 2 3 4.
  destruct (get_member b (str "title")) as [t|e]; [|reflexivity].
  destruct (get_member b (str "details")) as [d|e]; [|reflexivity].
  pose proof (generateBlog_effect env t d w) as Heff.
  destruct (prompt t d) as [p|e]; [|now rewrite Heff].
  destruct Heff as (g & added & Hrun & _).
  rewrite Hrun; apply IH.
Qed.

(** An item the loop cannot generate stops it where it stands. *)
Lemma generate_each_stops (env : Env) (bad : jsval) (rest : list jsval) :
  valid_item bad = false ->
  forall (acc : list Generated) (w : World),
  exists e, generate_each env (bad :: rest) acc w = (Throw e, w).
Proof.
  intros Hbad acc w.
  cbn [generate_each]; unfold bind, lift at 1 2.
  destruct (nullish bad) eqn:Hnn.
  - destruct bad; try discriminate Hnn; cbn; eauto.
  - rewrite !(@get_member_opt bad _ Hnn).
    fold (title_of bad) (details_of bad).
    unfold valid_item in Hbad; rewrite Hnn in Hbad; cbn [negb andb] in Hbad.
    rewrite prompt_built in Hbad.
    pose proof (generateBlog_effect env (title_of bad) (details_of bad) w) as Heff.
    destruct (prompt (title_of bad) (details_of bad)) as [p|e]; [discriminate|].
    rewrite Heff; eauto.
Qed.

(** The loop runs to its end exactly when it can generate every item. *)
Lemma generate_each_outcome (env : Env) (items : list jsval) :
  forall (acc : list Generated) (w : World),
    forallb valid_item items
    = match fst (generate_each env items acc w) with
      | Return _ => true
      | Throw _ => false
      end.
Proof.
  induction items as [|b rest IH]; intros acc w; [reflexivity|].
  cbn [forallb].
  destruct (valid_item b) eqn:Hb.
  - destruct (valid_item_parts _ Hb) as [Hnn [p Hp]].
    cbn [generate_each andb]; unfold bind, lift at 1 2.
    rewrite !(@get_member_opt b _ Hnn).
    fold (title_of b) (details_of b).
    pose proof (generateBlog_effect env (title_of b) (details_of b) w) as Heff.
    unfold prompt_of in Hp; rewrite Hp in Heff.
    destruct Heff as (g & added & Hrun & _).
    rewrite Hrun; apply IH.
  - destruct (@generate_each_stops env b rest Hb acc w) as [e ->]; reflexivity.
Qed.

Lemma blogs_of_body (items : list jsval) :
  get_member (body_of items) (str "blogs") = Return (JArr items).
Proof. reflexivity. Qed.

(** X5: the status of [POST /generate] is decided by the request
    alone: 500 without a body or with an item that is [null] or whose
    title or details cannot be interpolated, 400 when [blogs] is not an
    array, 200 otherwise.  The inference API, the collection and the
    clock have no say in it: a batch in which every generation fails in
    the [try] is still answered with 200. *)
Theorem status_depends_on_request_only
    (env : Env) (w : World) (req_body : jsval) :
  status (fst (post_generate env req_body w)) = expected_status req_body
  /\ (expected_status req_body = 200%nat
      <-> exists results,
            body (fst (post_generate env req_body w)) = ResultsJson results).
Proof.
  unfold post_generate, post_generate_try, expected_status, bind, lift.
  destruct (nullish req_body) eqn:Hbody.
  - destruct req_body; try discriminate Hbody; cbn;
      (split; [reflexivity|split; [discriminate|intros [r H]; discriminate H]]).
  - rewrite (@get_member_opt req_body _ Hbody).
    destruct (opt_member req_body (str "blogs")) as [| |b|n|s|items|o];
      cbn [truthy isArray negb orb elements_of];
      try (destruct (negb _); cbn;
           (split; [reflexivity|split; [discriminate|intros [r H]; discriminate H]])).
    + cbn; split; [reflexivity|split; [discriminate|intros [r H]; discriminate H]].
    + cbn; split; [reflexivity|split; [discriminate|intros [r H]; discriminate H]].
    + rewrite (generate_each_outcome env items [] w).
      destruct (generate_each env items [] w) as [[results|e] w']; cbn.
      * split; [reflexivity|split; [eauto|reflexivity]].
      * split; [reflexivity|split; [discriminate|intros [r H]; discriminate H]].
    + cbn; split; [reflexivity|split; [discriminate|intros [r H]; discriminate H]].
Qed.

Example status_samples :
  expected_status (body_of [item "Closures" "in JS"; JNum (str "42")]) = 200%nat
  /\ expected_status (body_of [item "Closures" "in JS"; odd_item]) = 500%nat
  /\ expected_status (body_of [JNull]) = 500%nat
  /\ expected_status (JObj []) = 400%nat
  /\ expected_status JUndefined = 500%nat.
Proof. repeat split. Qed.

(** X6: an item the loop cannot generate ([null], [undefined], or with
    a title or details that cannot be interpolated) aborts the batch
    with 500, but nothing is rolled back: the state is exactly the one
    that posting only the items before it leaves, their records stay
    stored, and no request is ever sent for that item or the items
    after it. *)
Theorem bad_item_keeps_earlier_records
    (env : Env) (w : World) (req_body : jsval) (before after : list jsval)
    (bad : jsval) :
  get_member req_body (str "blogs") = Return (JArr (before ++ bad :: after)) ->
  Forall (fun b => valid_item b = true) before ->
  valid_item bad = false ->
  exists results w',
    post_generate env req_body w = (mkResponse 500 (ErrorJson server_error), w')
    /\ post_generate env (body_of before) w
       = (mkResponse 200 (ResultsJson results), w')
    /\ sent w' = sent w ++ requests_of before
    /\ List.length (requests_of before) = List.length before
    /\ db w' = db w ++ documents_of results.
Proof.
  intros Hblogs Hbefore Hbad.
  destruct (generate_each_items env Hbefore [] w) as (results & Hloop & _).
  cbn [app] in Hloop.
  destruct (generate_each_returned _ _ _ _ Hloop) as (new & Hnew & _ & Hdb & Hsent & _).
  cbn [app] in Hnew; subst new.
  exists results, (world_before env w before (List.length before)).
  split; [|split; [|split; [exact Hsent|split; [|exact Hdb]]]].
  - unfold post_generate, post_generate_try, bind, lift.
    rewrite Hblogs; cbn [truthy isArray negb orb elements_of].
    rewrite generate_each_app, Hloop.
    now destruct (@generate_each_stops env bad after Hbad results
                    (world_before env w before (List.length before))) as [e ->].
  - unfold post_generate, post_generate_try, bind, lift.
    rewrite blogs_of_body; cbn [truthy isArray negb orb elements_of].
    now rewrite Hloop.
  - now apply requests_of_valid.
Qed.

Lemma bad_item_keeps_earlier_records_witness :
  let before := [item "Closures" "in JS"] in
  let after := [item "Promises" "async basics"] in
  let req_body := body_of (before ++ odd_item :: after) in
  get_member req_body (str "blogs") = Return (JArr (before ++ odd_item :: after))
  /\ Forall (fun b => valid_item b = true) before
  /\ valid_item odd_item = false
  /\ exists results w',
       post_generate env_up req_body empty_world
         = (mkResponse 500 (ErrorJson server_error), w')
       /\ post_generate env_up (body_of before) empty_world
          = (mkResponse 200 (ResultsJson results), w')
       /\ sent w' = sent empty_world ++ requests_of before
       /\ List.length (requests_of before) = List.length before
       /\ db w' = db empty_world ++ documents_of results.
Proof.
  intros before after req_body.
  assert (Hb : Forall (fun b => valid_item b = true) before) by repeat constructor.
  split; [reflexivity|]. split; [exact Hb|]. split; [reflexivity|].
  exact (@bad_item_keeps_earlier_records env_up empty_world req_body before after
           odd_item eq_refl Hb eq_refl).
Defined.

(** X7: when the route answers 200, the documents in the response are
    exactly the records appended to the collection, in the order of the
    response, and one inference request was sent for each entry. *)
Theorem response_documents_are_the_new_records
    (env : Env) (w w' : World) (req_body : jsval) (results : list Generated) :
  post_generate env req_body w = (mkResponse 200 (ResultsJson results), w') ->
  db w' = db w ++ documents_of results
  /\ List.length (sent w') = (List.length (sent w) + List.length results)%nat
  /\ (List.length (documents_of results) <= List.length results)%nat.
Proof.
  unfold post_generate, post_generate_try, bind, lift.
  destruct (get_member req_body (str "blogs")) as [blogs|e]; [|discriminate].
  destruct (negb (truthy blogs) || negb (isArray blogs)); [discriminate|].
  destruct (generate_each env (elements_of blogs) [] w) as [[rs|e] w1] eqn:Hloop;
    [|discriminate].
  intros H; injection H as <- <-.
  destruct (generate_each_returned _ _ _ _ Hloop)
    as (new & Hnew & Hlen & Hdb & Hsent & Hvalid).
  cbn [app] in Hnew; subst new.
  split; [exact Hdb|]. split.
  - now rewrite Hsent, length_app, (requests_of_valid Hvalid), Hlen.
  - clear; induction rs as [|[doc|m] rs IH]; cbn; lia.
Qed.

Lemma response_documents_are_the_new_records_witness :
  let items := [item "Closures" "in JS"; item "Promises" "async basics";
                item "Generators" "lazy sequences"] in
  let r := post_generate env_flaky (body_of items) empty_world in
  exists results,
    r = (mkResponse 200 (ResultsJson results), snd r)
    /\ db (snd r) = db empty_world ++ documents_of results
    /\ List.length (sent (snd r))
       = (List.length (sent empty_world) + List.length results)%nat
    /\ (List.length (documents_of results) <= List.length results)%nat.
Proof.
  intros items r.
  eexists; split; [reflexivity|].
  apply (@response_documents_are_the_new_records env_flaky empty_world (snd r)
           (body_of items)).
  reflexivity.
Defined.

(** X8: a batch can be split.  When the loop can generate every item
    of [first], posting [first ++ second] in one request leaves the
    same state, and answers with the same results, as posting [first]
    and then [second]; if [second] fails with 500, so does the whole. *)
Theorem batch_can_be_split
    (env : Env) (w : World) (first second : list jsval) :
  Forall (fun b => valid_item b = true) first ->
  exists results w1,
    post_generate env (body_of first) w = (mkResponse 200 (ResultsJson results), w1)
    /\ post_generate env (body_of (first ++ second)) w
       = (after_results results (fst (post_generate env (body_of second) w1)),
          snd (post_generate env (body_of second) w1)).
Proof.
  intros Hfirst.
  destruct (generate_each_items env Hfirst [] w) as (results & Hloop & _).
  cbn [app] in Hloop.
  exists results, (world_before env w first (List.length first)).
  unfold post_generate, post_generate_try, bind, lift.
  rewrite !blogs_of_body; cbn [truthy isArray negb orb elements_of].
  rewrite generate_each_app, Hloop, generate_each_acc.
  split; [reflexivity|].
  destruct (generate_each env second [] _) as [[rs|e] w2]; reflexivity.
Qed.

Lemma batch_can_be_split_witness :
  let first := [item "Closures" "in JS"] in
  let second := [item "Promises" "async basics"; item "Generators" "lazy sequences"] in
  Forall (fun b => valid_item b = true) first
  /\ exists results w1,
       post_generate env_flaky (body_of first) empty_world
         = (mkResponse 200 (ResultsJson results), w1)
       /\ post_generate env_flaky (body_of (first ++ second)) empty_world
          = (after_results results
               (fst (post_generate env_flaky (body_of second) w1)),
             snd (post_generate env_flaky (body_of second) w1)).
Proof.
  intros first second.
  assert (H : Forall (fun b => valid_item b = true) first) by repeat constructor.
  split; [exact H|].
  exact (@batch_can_be_split env_flaky empty_world first second H).
Defined.

(** X9: items are not validated.  An item that is a number, a string,
    a boolean or an array is generated like any other: the route
    answers 200 with one result, the inference request is the one for
    an [undefined] title and [undefined] details, and a document stored
    for it has neither. *)
Theorem items_are_not_validated (env : Env) (w : World) (b : jsval) :
  nullish b = false ->
  is_object b = false ->
  exists g w',
    post_generate env (body_of [b]) w = (mkResponse 200 (ResultsJson [g]), w')
    /\ sent w' = sent w ++ [request (prompt_text (str "undefined") (str "undefined"))]
    /\ prompt JUndefined JUndefined
       = Return (prompt_text (str "undefined") (str "undefined"))
    /\ forall doc, g = Document doc ->
                   title doc = JUndefined /\ details doc = JUndefined.
Proof.
  intros Hb Hobj.
  assert (Ht : forall k, get_member b k = Return JUndefined)
    by (intros k; destruct b; try discriminate; reflexivity).
  assert (Hp : prompt JUndefined JUndefined
               = Return (prompt_text (str "undefined") (str "undefined")))
    by reflexivity.
  unfold post_generate, post_generate_try, bind, lift.
  rewrite blogs_of_body; cbn [truthy isArray negb orb elements_of generate_each].
  unfold bind, lift; rewrite !Ht.
  destruct (generateBlog_outcome env JUndefined JUndefined w Hp)
    as [Hrun|(response & doc & Hrun & _ & _ & Htitle & Hdetails & _)];
    rewrite Hrun; cbn; eexists _, _; (split; [reflexivity|]);
    (split; [reflexivity|]); (split; [reflexivity|]);
    intros doc' Hdoc; [discriminate Hdoc|].
  injection Hdoc as <-.
  cbn in Htitle, Hdetails.
  injection Htitle as <-; injection Hdetails as <-; split; reflexivity.
Qed.

Lemma items_are_not_validated_witness :
  nullish (JNum (str "42")) = false
  /\ is_object (JNum (str "42")) = false
  /\ exists g w',
       post_generate env_up (body_of [JNum (str "42")]) empty_world
         = (mkResponse 200 (ResultsJson [g]), w')
       /\ sent w'
          = sent empty_world
            ++ [request (prompt_text (str "undefined") (str "undefined"))]
       /\ prompt JUndefined JUndefined
          = Return (prompt_text (str "undefined") (str "undefined"))
       /\ forall doc, g = Document doc ->
                      title doc = JUndefined /\ details doc = JUndefined.
Proof.
  split; [reflexivity|]. split; [reflexivity|].
  apply (@items_are_not_validated env_up empty_world (JNum (str "42")));
    reflexivity.
Defined.

(** ** Routes together *)

(** X10: a record stored by [POST /generate] is listed by the next
    [GET /blog]: after a batch answered with 200, the listing holds
    exactly the records that were there before and the documents of the
    response, each once. *)
Theorem generated_records_are_listed
    (env : Env) (tie : TieOrder) (w w' : World) (req_body : jsval)
    (results : list Generated) :
  post_generate env req_body w = (mkResponse 200 (ResultsJson results), w') ->
  exists blogs,
    fst (get_blog tie w') = mkResponse 200 (BlogsJson blogs)
    /\ Permutation (db w ++ documents_of results) blogs
    /\ forall doc, In (Document doc) results -> In doc blogs.
Proof.
  unfold post_generate, post_generate_try, bind, lift.
  destruct (get_member req_body (str "blogs")) as [blogs|e]; [|discriminate].
  destruct (negb (truthy blogs) || negb (isArray blogs)); [discriminate|].
  destruct (generate_each env (elements_of blogs) [] w) as [[rs|e] w1] eqn:Hloop;
    [|discriminate].
  intros H; injection H as <- <-.
  destruct (generate_each_returned _ _ _ _ Hloop) as (new & Hnew & _ & Hdb & _).
  cbn [app] in Hnew; subst new.
  exists (sort_desc tie (db w1)); split; [reflexivity|].
  assert (Hperm : Permutation (db w ++ documents_of rs) (sort_desc tie (db w1)))
    by (rewrite <- Hdb; apply sort_desc_perm).
  split; [exact Hperm|].
  intros doc Hin.
  apply (Permutation_in _ Hperm), in_or_app; right.
  clear -Hin; induction rs as [|[d|m] rs IH]; cbn in *; [contradiction| |].
  - destruct Hin as [H|H]; [injection H as ->; now left|right; auto].
  - destruct Hin as [H|H]; [discriminate H|auto].
Qed.

Lemma generated_records_are_listed_witness :
  let items := [item "Closures" "in JS"; item "Promises" "async basics"] in
  let r := post_generate env_up (body_of items) shuffled_world in
  exists results,
    r = (mkResponse 200 (ResultsJson results), snd r)
    /\ exists blogs,
         fst (get_blog last_wins (snd r)) = mkResponse 200 (BlogsJson blogs)
         /\ Permutation (db shuffled_world ++ documents_of results) blogs
         /\ forall doc, In (Document doc) results -> In doc blogs.
Proof.
  intros items r.
  eexists; split; [reflexivity|].
  apply (@generated_records_are_listed env_up last_wins shuffled_world (snd r)
           (body_of items)).
  reflexivity.
Defined.

Lemma extends_refl (w : World) : extends w w.
Proof.
  exists [], []; rewrite !app_nil_r; repeat split; constructor.
Qed.

Lemma extends_trans (w1 w2 w3 : World) :
  extends w1 w2 -> extends w2 w3 -> extends w1 w3.
Proof.
  intros (a1 & r1 & Hd1 & Hs1 & Hl1 & Hw1) (a2 & r2 & Hd2 & Hs2 & Hl2 & Hw2).
  exists (a1 ++ a2), (r1 ++ r2).
  rewrite Hd2, Hd1, Hs2, Hs1, <- !app_assoc, !length_app.
  repeat split; [lia|now apply Forall_app].
Qed.

Lemma generateBlog_extends (env : Env) (t d : jsval) (w : World) :
  extends w (snd (generateBlog env t d w)).
Proof.
  pose proof (generateBlog_effect env t d w) as Heff.
  destruct (prompt t d) as [p|e] eqn:Hp; [|rewrite Heff; apply extends_refl].
  clear Heff.
  destruct (generateBlog_outcome env t d w Hp)
    as [Hrun|(response & doc & Hrun & _ & Hcontent & _)]; rewrite Hrun.
  - exists [], [request p]; cbn; rewrite app_nil_r.
    repeat split; [lia|constructor].
  - exists [doc], [request p]; cbn.
    repeat split; [lia|].
    constructor; [exact (document_well_formed _ _ Hcontent)|constructor].
Qed.

Lemma generate_each_extends (env : Env) (items : list jsval) :
  forall (acc : list Generated) (w : World),
    extends w (snd (generate_each env items acc w)).
Proof.
  induction items as [|b rest IH]; intros acc w; [apply extends_refl|].
  cbn [generate_each]; unfold bind, lift at 1 2.
  destruct (get_member b (str "title")) as [t|e]; [|apply extends_refl].
  destruct (get_member b (str "details")) as [d|e]; [|apply extends_refl].
  pose proof (generateBlog_extends env t d w) as Hext.
  destruct (generateBlog env t d w) as [[g|e] w1]; cbn [snd] in Hext;
    [|exact Hext].
  exact (extends_trans Hext (IH _ w1)).
Qed.

Lemma handle_extends (env : Env) (r : Request) (w : World) :
  extends w (snd (handle env r w)).
Proof.
  destruct r as [req_body|[|tie]]; cbn [handle get_blog_route get_blog snd];
    try apply extends_refl.
  unfold post_generate, post_generate_try, bind, lift.
  destruct (get_member req_body (str "blogs")) as [blogs|e]; [|apply extends_refl].
  destruct (negb (truthy blogs) || negb (isArray blogs)); [apply extends_refl|].
  pose proof (generate_each_extends env (elements_of blogs) [] w) as H.
  destruct (generate_each env (elements_of blogs) [] w) as [[rs|e] w']; exact H.
Qed.

(** X11: over any sequence of requests to the two routes, whatever the
    bodies and however the inference API and the store behave (writes
    rejected, reads failing or ordering ties at will), records are only
    ever appended, no more records are written than inference requests
    were sent, every record written has a non-empty content with no
    white space at its ends, and a collection whose records all have
    such a content keeps that property. *)
Theorem serve_keeps_collection_sound
    (env : Env) (rs : list Request) (w : World) :
  extends w (snd (serve env rs w))
  /\ (Forall well_formed (db w) -> Forall well_formed (db (snd (serve env rs w)))).
Proof.
  assert (Hext : extends w (snd (serve env rs w))).
  { revert w; induction rs as [|r rs IH]; intros w; [apply extends_refl|].
    cbn [serve].
    pose proof (handle_extends env r w) as Hr.
    destruct (handle env r w) as [res w1]; cbn [snd] in Hr.
    pose proof (IH w1) as Hrest.
    destruct (serve env rs w1) as [more w2]; cbn [snd] in *.
    exact (extends_trans Hr Hrest). }
  split; [exact Hext|].
  destruct Hext as (added & reqs & -> & _ & _ & Hadded).
  intros Hw; now apply Forall_app.
Qed.

(** ** More on [GET /blog] *)

(** X12: when no two records have the same date, the listing does not
    depend on the order in which the records were inserted, nor on how
    the database would order ties: two collections with the same
    records give the same response. *)
Theorem listing_ignores_insertion_order (tie1 tie2 : TieOrder) (w1 w2 : World) :
  Permutation (db w1) (db w2) ->
  NoDup (map createdAt (db w1)) ->
  fst (get_blog tie1 w1) = fst (get_blog tie2 w2).
Proof.
  intros Hperm Hnodup; cbn; do 2 f_equal.
  apply sorted_perm_unique; try apply sort_desc_sorted.
  - rewrite <- !sort_desc_perm; exact Hperm.
  - eapply Permutation_NoDup; [|exact Hnodup].
    apply Permutation_map, sort_desc_perm.
Qed.

Lemma listing_ignores_insertion_order_witness :
  let w2 := mkWorld (rev (db shuffled_world)) [] in
  Permutation (db shuffled_world) (db w2)
  /\ NoDup (map createdAt (db shuffled_world))
  /\ fst (get_blog first_wins shuffled_world) = fst (get_blog last_wins w2).
Proof.
  intros w2.
  assert (Hp : Permutation (db shuffled_world) (db w2)) by apply Permutation_rev.
  assert (Hn : NoDup (map createdAt (db shuffled_world))).
  { cbn; repeat constructor; cbn; intuition discriminate. }
  split; [exact Hp|]. split; [exact Hn|].
  exact (@listing_ignores_insertion_order first_wins last_wins shuffled_world w2 Hp Hn).
Defined.

(** ** The prompt *)

(** X13: the template does not escape what it interpolates, so the
    prompt does not tell where the title ends and the details begin:
    text moved from the details into the title together with the
    template's own connecting text gives a different pair of inputs and
    the very same prompt, hence the very same inference request. *)
Theorem prompt_is_ambiguous (title_text moved details_text : jsstring) :
  let t1 := JStr title_text in
  let d1 := JStr (moved ++ prompt_between ++ details_text) in
  let t2 := JStr (title_text ++ prompt_between ++ moved) in
  let d2 := JStr details_text in
  t1 <> t2
  /\ prompt t1 d1 = prompt t2 d2
  /\ exists p, prompt t1 d1 = Return p /\ prompt t2 d2 = Return p.
Proof.
  intros t1 d1 t2 d2.
  assert (Hprompt : prompt t1 d1 = prompt t2 d2).
  { unfold t1, d1, t2, d2; rewrite !prompt_of_strings; f_equal.
    unfold prompt_text, prompt_between; rewrite <- !app_assoc; reflexivity. }
  split; [|split; [exact Hprompt|]].
  - assert (Hlen : (0 < List.length prompt_between)%nat)
      by (vm_compute; lia).
    unfold t1, t2; set (between := prompt_between) in *; clearbody between.
    intros H; injection H as H.
    apply (f_equal (@List.length N)) in H.
    rewrite !length_app in H.
    lia.
  - rewrite <- Hprompt; unfold t1, d1; rewrite prompt_of_strings; eauto.
Qed.

(** ** Start-up configuration *)

Lemma env_var_truthy (penv : ProcessEnv) (name : jsstring) :
  truthy (env_var penv name) = is_set penv name.
Proof.
  unfold env_var, is_set; destruct (penv name) as [[|c s]|]; reflexivity.
Qed.

(** X14: the API token is [HF_TOKEN] when that variable holds a
    non-empty string, and otherwise whatever [HF_API_KEY] holds, so an
    empty [HF_TOKEN] does not hide [HF_API_KEY]; the warning is printed
    exactly when neither variable holds a non-empty string. *)
Theorem token_falls_back_to_api_key (penv : ProcessEnv) :
  (is_set penv (str "HF_TOKEN") = true ->
   HF_TOKEN penv = env_var penv (str "HF_TOKEN"))
  /\ (is_set penv (str "HF_TOKEN") = false ->
      HF_TOKEN penv = env_var penv (str "HF_API_KEY"))
  /\ (warns_missing_token penv = true
      <-> is_set penv (str "HF_TOKEN") = false
          /\ is_set penv (str "HF_API_KEY") = false).
Proof.
  unfold warns_missing_token, HF_TOKEN, js_or.
  rewrite env_var_truthy.
  destruct (is_set penv (str "HF_TOKEN")) eqn:E1.
  - rewrite env_var_truthy, E1.
    split; [reflexivity|split; [discriminate|]].
    split; [discriminate|intros [H _]; discriminate H].
  - rewrite env_var_truthy.
    split; [discriminate|split; [reflexivity|]].
    destruct (is_set penv (str "HF_API_KEY")); cbn;
      split; try discriminate; auto.
    intros [_ H]; discriminate H.
Qed.

(** X15: the port is 5000 exactly when [PORT] is unset or empty; any
    non-empty value, the text ["0"] included, is taken as it is. *)
Theorem port_defaults_to_5000 (penv : ProcessEnv) :
  (PORT penv = JNum (str "5000") <-> is_set penv (str "PORT") = false)
  /\ (forall s, penv (str "PORT") = Some s -> s <> [] -> PORT penv = JStr s).
Proof.
  unfold PORT, js_or, is_set, env_var.
  destruct (penv (str "PORT")) as [[|c s]|]; cbn.
  - split; [split; reflexivity|intros s H1 H2; injection H1 as <-; now elim H2].
  - split; [split; discriminate|intros s' H _; now injection H as <-].
  - split; [split; reflexivity|intros s H; discriminate H].
Qed.

Example configuration_samples :
  HF_TOKEN (penv_of [(str "HF_TOKEN", []); (str "HF_API_KEY", str "hf_key")])
  = JStr (str "hf_key")
  /\ warns_missing_token (penv_of [(str "HF_TOKEN", [])]) = true
  /\ PORT (penv_of [(str "PORT", str "0")]) = JStr (str "0")
  /\ PORT (penv_of []) = JNum (str "5000").
Proof. repeat split. Qed.

(** ** The inference requests over time *)

Lemma sends_fixed_refl (w : World) : sends_fixed w w.
Proof. exists []; rewrite app_nil_r; split; [reflexivity|constructor]. Qed.

Lemma sends_fixed_trans (w1 w2 w3 : World) :
  sends_fixed w1 w2 -> sends_fixed w2 w3 -> sends_fixed w1 w3.
Proof.
  intros (r1 & Hs1 & Hf1) (r2 & Hs2 & Hf2).
  exists (r1 ++ r2); rewrite Hs2, Hs1, <- app_assoc.
  split; [reflexivity|now apply Forall_app].
Qed.

Lemma generate_each_sends_fixed (env : Env) (items : list jsval) :
  forall (acc : list Generated) (w : World),
    sends_fixed w (snd (generate_each env items acc w)).
Proof.
  induction items as [|b rest IH]; intros acc w; [apply sends_fixed_refl|].
  cbn [generate_each]; unfold bind, lift at 1 2.
  destruct (get_member b (str "title")) as [t|e]; [|apply sends_fixed_refl].
  destruct (get_member b (str "details")) as [d|e]; [|apply sends_fixed_refl].
  pose proof (generateBlog_effect env t d w) as Heff.
  destruct (prompt t d) as [p|e]; [|rewrite Heff; apply sends_fixed_refl].
  destruct Heff as (g & added & Hrun & _).
  rewrite Hrun; refine (sends_fixed_trans _ (IH _ _)).
  exists [request p]; split; [reflexivity|].
  constructor; [|constructor].
  repeat split; now exists p.
Qed.

Lemma handle_sends_fixed (env : Env) (r : Request) (w : World) :
  sends_fixed w (snd (handle env r w)).
Proof.
  destruct r as [req_body|[|tie]]; cbn [handle get_blog_route get_blog snd];
    try apply sends_fixed_refl.
  unfold post_generate, post_generate_try, bind, lift.
  destruct (get_member req_body (str "blogs")) as [blogs|e];
    [|apply sends_fixed_refl].
  destruct (negb (truthy blogs) || negb (isArray blogs));
    [apply sends_fixed_refl|].
  pose proof (generate_each_sends_fixed env (elements_of blogs) [] w) as H.
  destruct (generate_each env (elements_of blogs) [] w) as [[rs|e] w']; exact H.
Qed.

(** X16: over any sequence of requests to the two routes, every
    inference request the service sends names the same model, caps the
    output at 800 tokens, samples at temperature 0.6 and consists of
    the fixed system message and one user message; requests already
    logged are never altered. *)
Theorem every_request_has_fixed_parameters
    (env : Env) (rs : list Request) (w : World) :
  exists reqs,
    sent (snd (serve env rs w)) = sent w ++ reqs
    /\ Forall fixed_parameters reqs.
Proof.
  change (sends_fixed w (snd (serve env rs w))).
  revert w; induction rs as [|r rs IH]; intros w; [apply sends_fixed_refl|].
  cbn [serve].
  pose proof (handle_sends_fixed env r w) as Hr.
  destruct (handle env r w) as [res w1]; cbn [snd] in Hr.
  pose proof (IH w1) as Hrest.
  destruct (serve env rs w1) as [more w2]; cbn [snd] in *.
  exact (sends_fixed_trans Hr Hrest).
Qed.
